(** * G'raha Tia: message intake, abuse control and dispatch

    A shallow embedding of [bot.py] (class [Graha]) and
    [utilities/prefix.py] ([callable_prefix]).

    Conventions of the embedding.
    - The bot object is the record [Graha]; every handler takes the bot and
      returns the bot after the call together with what the call did to the
      outside world, as a list of [Effect]s in program order.
    - Coroutines are run to completion: a handler is one atomic step.
    - Snowflake ids are [Z]; timestamps ([created_at.timestamp()], seconds)
      are exact rationals [Q]; the floats of the program are idealised.
    - A [str] is held as the bytes of its UTF-8 encoding.
    - What the program takes from its runtime and its framework (command
      resolution, ray ids, [time.time()], [str.casefold],
      [textwrap.shorten]) is a variable of the section that uses it.
    - A Python exception leaving a function is the [Raised] outcome. *)

From Stdlib Require Import ZArith QArith Lqa String Ascii List Bool Lia.
From stdpp Require Import gmap strings pretty list.

Open Scope Z_scope.

(** ** Outcomes and exceptions *)

Inductive PyError : Type :=
| KeyError
| IndexError
| AssertionError
| TooManyArguments (msg : string).

Inductive Outcome (A : Type) : Type :=
| Returned (a : A)
| Raised (e : PyError).

Arguments Returned {A} a.
Arguments Raised {A} e.

(** Python truthiness of an [Optional[float]]: [None] and [0.0] are falsy. *)
Definition truthy (retry_after : option Q) : bool :=
  match retry_after with
  | None => false
  | Some r => negb (Qeq_bool r 0)
  end.

(** ** The persistence collaborator [utilities.async_config.Config] *)

Module Config.

(** A key as a caller passes it: [bot.py] passes ids ([int]), while
    [prefix.py] passes [str(message.guild.id)]. *)
Inductive Key : Type :=
| KInt (i : Z)
| KStr (s : string).

(** Modelled from the spec: the class [Config] of [utilities/async_config.py]
    is not under src/.  The spec (External interfaces) gives it as a
    "key-value style store for PrefixSet and Blocklist, with operations
    get(key), put(key, value), remove(key)".  The store is a finite map;
    so that the integer key of [bot.py] and the string key of [prefix.py]
    address the same group's entry, a key is read through [str]. *)
Definition str (k : Key) : string :=
  match k with
  | KInt i => pretty i
  | KStr s => s
  end.

Section Store.
Context {V : Type}.

(** Modelled from the spec: [Config.get(key, default)], the stored value
    or [default] when the key is absent. *)
Definition get (db : gmap string V) (key : Key) (default : option V) : option V :=
  match db !! str key with
  | Some v => Some v
  | None => default
  end.

(** Modelled from the spec: [Config.put(key, value)]. *)
Definition put (db : gmap string V) (key : Key) (value : V) : gmap string V :=
  <[str key := value]> db.

(** Modelled from the spec: [Config.remove(key)].  [_blacklist_remove]
    guards the call with [except KeyError], so an absent key is taken to
    raise [KeyError], as deleting from a dict does. *)
Definition remove (db : gmap string V) (key : Key) : Outcome (gmap string V) :=
  match db !! str key with
  | Some _ => Returned (delete (str key) db)
  | None => Raised KeyError
  end.

(** Modelled from the spec: [key in config], the membership test the
    blocklist check of [process_commands] uses. *)
Definition contains (db : gmap string V) (key : Key) : bool :=
  bool_decide (is_Some (db !! str key)).

End Store.

End Config.

(** ** The rate limiter ([commands.CooldownMapping] and its buckets) *)

(** Modelled from the spec: the bucket class behind
    [commands.CooldownMapping] is not under src/.  The spec (Data model)
    gives the per-caller state
    [{window_start, count, capacity, period}], "created lazily on first event
    from a caller"; a bucket that has seen no event has no window yet.
    [_last] is the time of the bucket's latest check, [0] before the first,
    which the sweep of idle buckets reads. *)
Record Cooldown : Type := mkCooldown {
  window_start : option Q;
  count : Z;
  capacity : Z;
  period : Q;
  _last : Q
}.

(** Modelled from the spec: "if event_time falls outside the current window".
    The window runs from [window_start] to [window_start + period] and is
    closed at its end, the test of the library being
    [current > window + per]: at exactly [window_start + period] the event is
    still inside (and its [retry_after] is then [0], which [process_commands]
    takes as not throttled).  A bucket without a window has every event
    outside. *)
Definition outside_window (b : Cooldown) (event_time : Q) : bool :=
  match window_start b with
  | None => true
  | Some w => if Qlt_le_dec (w + period b) event_time then true else false
  end.

(** Modelled from the spec: [bucket.update_rate_limit(current)], spec 4.2:
    "if event_time falls outside the current window, reset count=0,
    window_start=event_time.  Increment count; if count > capacity, return
    allowed=false, retry_after = window_start + period - event_time; else
    allowed=true."  The result is [None] when allowed, [Some retry_after]
    otherwise, next to the bucket after the call, which records [current] as
    the time of its latest check.  (The library reads its own clock instead
    when [current] is [0.0], the epoch itself; that case is left out.) *)
Definition update_rate_limit (b : Cooldown) (current : Q) : option Q * Cooldown :=
  let b1 :=
    if outside_window b current
    then mkCooldown (Some current) 0 (capacity b) (period b) (_last b)
    else b in
  let b2 :=
    mkCooldown (window_start b1) (count b1 + 1) (capacity b1) (period b1) current in
  if capacity b2 <? count b2
  then (match window_start b2 with
        | Some w => Some (w + period b2 - current)%Q
        | None => None
        end, b2)
  else (None, b2).

(** Modelled from the spec: [commands.CooldownMapping], "a per-caller ...
    bucket keyed by caller identity". *)
Record CooldownMapping : Type := mkCooldownMapping {
  mapping_capacity : Z;
  mapping_period : Q;
  _cache : gmap Z Cooldown
}.

(** Modelled from the spec: buckets are "garbage-collected implicitly when
    idle", the policy being left open.  The policy taken is the library's:
    a bucket is idle at the clock reading [current] when its latest check
    lies more than its period back ([current > _last + per]), and every
    lookup first drops the idle buckets of all callers. *)
Definition idle (b : Cooldown) (current : Q) : bool :=
  if Qlt_le_dec (_last b + period b) current then true else false.

Definition _verify_cache_integrity (mapping : CooldownMapping) (current : Q)
  : CooldownMapping :=
  mkCooldownMapping (mapping_capacity mapping) (mapping_period mapping)
    (filter (λ entry, idle entry.2 current = false) (_cache mapping)).

(** Modelled from the spec: a bucket "created lazily on first event from a
    caller" has the mapping's capacity and period and has counted nothing. *)
Definition create_bucket (mapping : CooldownMapping) : Cooldown :=
  mkCooldown None 0 (mapping_capacity mapping) (mapping_period mapping) 0.

(** Modelled from the spec: [CooldownMapping.from_cooldown(rate, per,
    BucketType.user)], an empty mapping of buckets keyed by the author id. *)
Definition from_cooldown (rate : Z) (per : Q) : CooldownMapping :=
  mkCooldownMapping rate per ∅.

(** ** Messages, contexts, effects *)

Record User : Type := mkUser {
  user_id : Z;
  bot : bool;
  display_name : string
}.

Record Message : Type := mkMessage {
  message_id : Z;
  author : User;
  guild : option Z;          (* [message.guild.id], [None] in DMs *)
  channel : Z;
  content : string;
  created_at : Q;            (* [message.created_at.timestamp()] *)
  embeds : list string
}.

Record Command : Type := mkCommand {
  name : string;
  qualified_name : string
}.

(** [utilities.context.Context]: the message, the resolved command, and the
    two attributes [on_command_error] reads. *)
Record Context : Type := mkContext {
  ctx_message : Message;
  command : option Command;
  exc_handled : bool;
  ray_id : string
}.

Definition ctx_author (ctx : Context) : User := author (ctx_message ctx).
Definition ctx_guild (ctx : Context) : option Z := guild (ctx_message ctx).
Definition ctx_channel (ctx : Context) : Z := channel (ctx_message ctx).

(** What a command body can raise, and what the framework hands to
    [on_command_error]. *)
Inductive Exception : Type :=
| HTTPException
| OtherException (what : string).

Inductive CommandError : Type :=
| NoPrivateMessage
| DisabledCommand
| CommandInvokeError (original : Exception)
| OtherCommandError (what : string).

(** [getattr(error, "original", error)] *)
Definition original_of (error : CommandError) : CommandError + Exception :=
  match error with
  | CommandInvokeError origin_ => inr origin_
  | e => inl e
  end.

Inductive Embed : Type :=
| AutoblockedMember (user : User) (guild_id : option Z) (channel_id : Z)
| CommandErrorEmbed (description : CommandError + Exception) (command_name : string)
    (author_ : User) (channel_id : Z) (guild_id : option Z) (content_ : string)
    (footer : string).

Inductive Effect : Type :=
| Invoke (ctx : Context)                                   (* [self.invoke(ctx)] *)
| LogWarning (author_id : Z) (guild_id : option Z) (retry_after : Q)
                                                           (* [LOGGER.warning] of [_log_spammer] *)
| LogException (command_name : string) (ray : string)      (* [LOGGER.exception] *)
| WebhookSend (embed : Embed)                              (* [logging_webhook.send] *)
| AddReaction (message : Message) (emoji : string)         (* [message.add_reaction] *)
| Send (ctx : Context) (content_ : string).                (* [ctx.send] *)

(** ** The bot *)

Record Graha : Type := mkGraha {
  _prefix_data : gmap string (list string);
  _blacklist_data : gmap string bool;
  _spam_cooldown_mapping : CooldownMapping;
  _spammer_count : gmap Z Z;
  _error_handling_cooldown : CooldownMapping;
  owner_id : option Z;
  user : Z                   (* [bot.user.id] *)
}.

(** [Graha.__init__]; [owner_id] is only set by [setup_hook]. *)
Definition init (bot_user : Z) : Graha :=
  mkGraha ∅ ∅ (from_cooldown 10 12) ∅ (from_cooldown 1 5) None bot_user.

Definition setup_hook (self : Graha) (app_owner : Z) : Graha :=
  mkGraha (_prefix_data self) (_blacklist_data self) (_spam_cooldown_mapping self)
    (_spammer_count self) (_error_handling_cooldown self) (Some app_owner) (user self).

Definition with_prefix_data (self : Graha) (d : gmap string (list string)) : Graha :=
  mkGraha d (_blacklist_data self) (_spam_cooldown_mapping self)
    (_spammer_count self) (_error_handling_cooldown self) (owner_id self) (user self).

Definition with_blacklist_data (self : Graha) (d : gmap string bool) : Graha :=
  mkGraha (_prefix_data self) d (_spam_cooldown_mapping self)
    (_spammer_count self) (_error_handling_cooldown self) (owner_id self) (user self).

Definition with_spam_cooldown_mapping (self : Graha) (m : CooldownMapping) : Graha :=
  mkGraha (_prefix_data self) (_blacklist_data self) m
    (_spammer_count self) (_error_handling_cooldown self) (owner_id self) (user self).

Definition with_spammer_count (self : Graha) (c : gmap Z Z) : Graha :=
  mkGraha (_prefix_data self) (_blacklist_data self) (_spam_cooldown_mapping self)
    c (_error_handling_cooldown self) (owner_id self) (user self).

Definition with_error_handling_cooldown (self : Graha) (m : CooldownMapping) : Graha :=
  mkGraha (_prefix_data self) (_blacklist_data self) (_spam_cooldown_mapping self)
    (_spammer_count self) m (owner_id self) (user self).

(** ** Bucket lookup *)

(** Modelled from the spec: [CooldownMapping.get_bucket(message)], the bucket
    of the message's author, "created lazily on first event from a caller",
    after the sweep of idle buckets at the clock reading [current] (the
    caller passes no time of its own, so the sweep reads [time.time()]).
    A mapping built by [from_cooldown] always has a bucket to give. *)
Definition get_bucket (mapping : CooldownMapping) (message : Message) (current : Q)
  : option Cooldown * CooldownMapping :=
  let mapping := _verify_cache_integrity mapping current in
  let key := user_id (author message) in
  match _cache mapping !! key with
  | Some bucket => (Some bucket, mapping)
  | None =>
      let bucket := create_bucket mapping in
      (Some bucket,
       mkCooldownMapping (mapping_capacity mapping) (mapping_period mapping)
         (<[key := bucket]> (_cache mapping)))
  end.

(** The bucket handed out by [get_bucket] is the object held in the cache:
    what [update_rate_limit] does to it is seen through the mapping. *)
Definition store_bucket (mapping : CooldownMapping) (message : Message) (bucket : Cooldown)
  : CooldownMapping :=
  mkCooldownMapping (mapping_capacity mapping) (mapping_period mapping)
    (<[user_id (author message) := bucket]> (_cache mapping)).

(** Modelled from the spec: [CooldownMapping.update_rate_limit(message)],
    the bucket lookup followed by the bucket's check at the clock reading
    [now] (the call passes no time of its own). *)
Definition mapping_update_rate_limit (mapping : CooldownMapping) (message : Message) (now : Q)
  : option Q * CooldownMapping :=
  let '(bucket, mapping1) := get_bucket mapping message now in
  match bucket with
  | None => (None, mapping1)
  | Some b =>
      let '(retry_after, b') := update_rate_limit b now in
      (retry_after, store_bucket mapping1 message b')
  end.

(** ** Blocklist and prefix administration *)

(** [object_id in self._blacklist_data], the test of [process_commands] and
    [on_guild_join]. *)
Definition is_blocked (self : Graha) (object_id : Z) : bool :=
  Config.contains (_blacklist_data self) (Config.KInt object_id).

Definition _blacklist_add (self : Graha) (object_id : Z) : Graha :=
  with_blacklist_data self (Config.put (_blacklist_data self) (Config.KInt object_id) true).

Definition _blacklist_remove (self : Graha) (object_id : Z) : Graha * Outcome unit :=
  match Config.remove (_blacklist_data self) (Config.KInt object_id) with
  | Returned db => (with_blacklist_data self db, Returned tt)
  | Raised KeyError => (self, Returned tt)
  | Raised e => (self, Raised e)
  end.

Definition _set_guild_prefixes (self : Graha) (guild_id : Z) (prefixes : option (list string))
  : Graha * Outcome unit :=
  match prefixes with
  | None | Some [] =>
      (with_prefix_data self (Config.put (_prefix_data self) (Config.KInt guild_id) []),
       Returned tt)
  | Some l =>
      if (10 <? length l)%nat
      then (self, Raised (TooManyArguments "Cannot have more than 10 custom prefixes."))
      else (with_prefix_data self (Config.put (_prefix_data self) (Config.KInt guild_id) l),
            Returned tt)
  end.

(** ** Prefix resolution ([utilities/prefix.py]) *)

(** [commands.when_mentioned]: the two mention forms of the bot user. *)
Definition when_mentioned (self : Graha) : list string :=
  [("<@" +:+ pretty (user self) +:+ "> ")%string;
   ("<@!" +:+ pretty (user self) +:+ "> ")%string].

(** [commands.when_mentioned_or] applied to the given prefixes, then to the
    bot and the message: the mention forms followed by the prefixes. *)
Definition when_mentioned_or (prefixes : list string) (self : Graha) : list string :=
  when_mentioned self ++ prefixes.

(** The number of bytes of the character whose encoding starts with the
    byte [c]. *)
Definition utf8_width (c : ascii) : nat :=
  let n := N_of_ascii c in
  if (n <? 192)%N then 1 else if (n <? 224)%N then 2 else if (n <? 240)%N then 3 else 4.

(** [s[0]]: the first character of [s], [IndexError] when [s] is empty. *)
Definition first_character (s : string) : Outcome string :=
  match s with
  | EmptyString => Raised IndexError
  | String c _ => Returned (String.substring 0 (utf8_width c) s)
  end.

Section Prefix.

(** [str.casefold] of one character, which can give more than one. *)
Variable str_casefold : string → string.

Definition callable_prefix (self : Graha) (message : Message) : Outcome (list string) :=
  match first_character (display_name (author message)) with
  | Raised e => Raised e
  | Returned character =>
      let username_prefix := (str_casefold character +:+ " ")%string in
      match guild message with
      | None => Returned (when_mentioned_or ["gt "%string; username_prefix] self)
      | Some guild_id =>
          let guild_prefixes :=
            Config.get (_prefix_data self) (Config.KStr (pretty guild_id)) None in
          let guild_prefixes :=
            match guild_prefixes with
            | None | Some [] => ["gt "%string]
            | Some l => l
            end in
          Returned (when_mentioned_or (guild_prefixes ++ [username_prefix]) self)
      end
  end.

End Prefix.

(** ** Intake and dispatch *)

Definition _log_spammer (ctx : Context) (message : Message) (retry_after : Q) (autoblock : bool)
  : list Effect :=
  let warning := LogWarning (user_id (author message)) (ctx_guild ctx) retry_after in
  if negb autoblock then [warning]
  else [warning;
        WebhookSend (AutoblockedMember (author message) (ctx_guild ctx) (channel message))].

(** The gateway feed: messages created and messages edited, in arrival
    order. *)
Inductive GatewayEvent : Type :=
| MessageCreate (message : Message)
| MessageEdit (before after : Message).

Section Dispatch.

(** Command resolution ([get_context]: prefix match and lookup in the
    command table) and the ray id of a context are the framework's;
    [time_time] is what [time.time()] reads while the message is processed. *)
Variable resolve_command : Graha → Message → option Command.
Variable new_ray_id : Message → string.
Variable time_time : Message → Q.

Definition get_context (self : Graha) (message : Message) : Context :=
  mkContext message (resolve_command self message) false (new_ray_id message).

Definition process_commands (self : Graha) (message : Message) : Graha * list Effect :=
  let ctx := get_context self message in
  match command ctx with
  | None => (self, [])
  | Some _ =>
    if is_blocked self (user_id (ctx_author ctx)) then (self, [])
    else if match ctx_guild ctx with
            | Some guild_id => is_blocked self guild_id
            | None => false
            end then (self, [])
    else
      let '(bucket, mapping) :=
        get_bucket (_spam_cooldown_mapping self) message (time_time message) in
      let self := with_spam_cooldown_mapping self mapping in
      match bucket with
      | None => (self, [])
      | Some bucket =>
        let current := created_at message in
        let '(retry_after, bucket) := update_rate_limit bucket current in
        let self := with_spam_cooldown_mapping self (store_bucket mapping message bucket) in
        let author_id := user_id (author message) in
        if truthy retry_after && bool_decide (Some author_id ≠ owner_id self)
        then
          (* here [retry_after] is a float other than 0.0 *)
          let retry_after := default 0%Q retry_after in
          let violations := default 0 (_spammer_count self !! author_id) + 1 in
          let self :=
            with_spammer_count self (<[author_id := violations]> (_spammer_count self)) in
          if 5 <=? violations
          then
            let self := _blacklist_add self author_id in
            let logged := _log_spammer ctx message retry_after true in
            let self := with_spammer_count self (delete author_id (_spammer_count self)) in
            (self, logged)
          else (self, _log_spammer ctx message retry_after false)
        else
          let self := with_spammer_count self (delete author_id (_spammer_count self)) in
          (self, [Invoke ctx])
      end
  end.

Definition on_message (self : Graha) (message : Message) : Graha * list Effect :=
  if bot (author message) then (self, [])
  else process_commands self message.

Definition on_message_edit (self : Graha) (before after : Message) : Graha * list Effect :=
  if bool_decide (Some (user_id (author after)) = owner_id self)
  then
    if negb (bool_decide (embeds before ≠ [])) && bool_decide (embeds after ≠ [])
    then (self, [])
    else process_commands self after
  else (self, []).

Definition handle (self : Graha) (ev : GatewayEvent) : Graha * list Effect :=
  match ev with
  | MessageCreate m => on_message self m
  | MessageEdit b a => on_message_edit self b a
  end.

(** The bot after a run of the feed, with the effects of each event. *)
Fixpoint run (self : Graha) (feed : list GatewayEvent) : Graha * list (list Effect) :=
  match feed with
  | [] => (self, [])
  | ev :: feed' =>
      let '(self1, out) := handle self ev in
      let '(self2, outs) := run self1 feed' in
      (self2, out :: outs)
  end.

(** *** Observations on a step, used to state the properties *)

(** The message names a command and neither its author nor its guild is
    blocked: [process_commands] takes it to the rate limiter. *)
Definition reaches_rate_check (self : Graha) (message : Message) : bool :=
  match resolve_command self message with
  | None => false
  | Some _ =>
      negb (is_blocked self (user_id (author message)))
      && negb (match guild message with
               | Some guild_id => is_blocked self guild_id
               | None => false
               end)
  end.

(** The message an event hands to [process_commands], if it hands one over:
    [on_message] does unless the author is a bot account, [on_message_edit]
    does for the owner's edits other than those in which embeds appeared. *)
Definition handed_over (self : Graha) (ev : GatewayEvent) : option Message :=
  match ev with
  | MessageCreate m => if bot (author m) then None else Some m
  | MessageEdit before after =>
      if bool_decide (Some (user_id (author after)) = owner_id self)
      then
        if negb (bool_decide (embeds before ≠ [])) && bool_decide (embeds after ≠ [])
        then None
        else Some after
      else None
  end.

(** The message by which an event reaches the rate limiter, if it does. *)
Definition checked (self : Graha) (ev : GatewayEvent) : option Message :=
  match handed_over self ev with
  | Some m => if reaches_rate_check self m then Some m else None
  | None => None
  end.

(** [P k g m] for every message [m] that reaches the rate limiter in the
    run of the feed, whoever its author, where [g] is the bot at the moment
    [m] arrives and [k] counts, from [k0], the messages of [caller] that
    reached the rate limiter before. *)
Fixpoint each_check (caller : Z) (P : nat → Graha → Message → Prop)
    (k0 : nat) (self : Graha) (feed : list GatewayEvent) : Prop :=
  match feed with
  | [] => True
  | ev :: feed' =>
      let self' := fst (handle self ev) in
      match checked self ev with
      | Some m =>
          P k0 self m
          ∧ each_check caller P
              (if bool_decide (user_id (author m) = caller) then S k0 else k0) self' feed'
      | None => each_check caller P k0 self' feed'
      end
  end.

(** The messages of a caller that reach the rate limiter in the run of the
    feed, in order. *)
Fixpoint checks_of (caller : Z) (self : Graha) (feed : list GatewayEvent) : list Message :=
  match feed with
  | [] => []
  | ev :: feed' =>
      let self' := fst (handle self ev) in
      match checked self ev with
      | Some m =>
          if bool_decide (user_id (author m) = caller)
          then m :: checks_of caller self' feed'
          else checks_of caller self' feed'
      | None => checks_of caller self' feed'
      end
  end.

End Dispatch.

(** ** Error reporting *)

Definition ray_quote (ray : string) : string :=
  (String "010"%char "Quote 'Ray ID: " +:+ ray +:+ "' if contacting the developer.")%string.

Section ErrorReporting.

(** [textwrap.shorten(text, width=...)] *)
Variable textwrap_shorten : string → Z → string.

Definition on_command_error (self : Graha) (now : Q) (ctx : Context) (error : CommandError)
  : Graha * list Effect * Outcome unit :=
  let reaction := AddReaction (ctx_message ctx) "❌" in
  if exc_handled ctx then (self, [reaction], Returned tt)
  else
    match command ctx with
    | None => (self, [reaction], Raised AssertionError)
    | Some cmd =>
      match error with
      | NoPrivateMessage | DisabledCommand =>
          let '(retry_period, mapping) :=
            mapping_update_rate_limit (_error_handling_cooldown self) (ctx_message ctx) now in
          let self := with_error_handling_cooldown self mapping in
          match retry_period with
          | None => (self, [reaction], Returned tt)
          | Some _ => (self, [reaction], Returned tt)     (* [ret += ...; return] *)
          end
      | CommandInvokeError origin_ =>
          let logged :=
            match origin_ with
            | HTTPException => []
            | _ => [LogException (name cmd) (ray_id ctx)]
            end in
          (self, reaction :: logged, Returned tt)         (* [ret += ...; return] *)
      | _ =>
          let embed :=
            CommandErrorEmbed (original_of error) (qualified_name cmd) (ctx_author ctx)
              (ctx_channel ctx) (ctx_guild ctx)
              (textwrap_shorten (content (ctx_message ctx)) 512)
              ("Ray ID: " +:+ ray_id ctx)%string in
          let ret := ray_quote (ray_id ctx) in
          (self, [reaction; WebhookSend embed; Send ctx ret], Returned tt)
      end
    end.

End ErrorReporting.

(** ** Observations used to state the properties *)


(** The bucket a lookup in the mapping gives a caller: the cached one, or a
    fresh one. *)
Definition bucket_for (mapping : CooldownMapping) (caller : Z) : Cooldown :=
  default (create_bucket mapping) (_cache mapping !! caller).

(** The number of violations the escalator has on record for a caller. *)
Definition violations (self : Graha) (caller : Z) : Z :=
  default 0 (_spammer_count self !! caller).


Definition is_invoke (e : Effect) : bool :=
  match e with Invoke _ => true | _ => false end.

Definition is_reply (e : Effect) : bool :=
  match e with Send _ _ => true | _ => false end.

Definition is_operator_diagnostic (e : Effect) : bool :=
  match e with WebhookSend (CommandErrorEmbed _ _ _ _ _ _ _) => true | _ => false end.

(** The caller an event is attributed to: the author of the message (of the
    edited message, for an edit), and its guild. *)
Definition event_message (ev : GatewayEvent) : Message :=
  match ev with
  | MessageCreate m => m
  | MessageEdit _ after => after
  end.

(** *** Windows of event times *)

(** [t] lies in the window of length [per] that opens at [s]. *)
Definition in_window (per s t : Q) : bool :=
  Qle_bool s t && negb (Qle_bool (s + per) t).

(** How many of the times [ts] lie in the window that opens at [s]. *)
Definition count_window (per s : Q) (ts : list Q) : nat :=
  length (filter (λ t, in_window per s t = true) ts).

Fixpoint nondecreasing (ts : list Q) : Prop :=
  match ts with
  | [] => True
  | t :: ts' => Forall (λ t', (t <= t')%Q) ts' ∧ nondecreasing ts'
  end.

(** The bot's settings a step never touches. *)
Definition same_settings (g g' : Graha) : Prop :=
  owner_id g' = owner_id g
  ∧ user g' = user g
  ∧ _prefix_data g' = _prefix_data g
  ∧ mapping_capacity (_spam_cooldown_mapping g') = mapping_capacity (_spam_cooldown_mapping g)
  ∧ mapping_period (_spam_cooldown_mapping g') = mapping_period (_spam_cooldown_mapping g).

(** What the bot holds about one caller is as it was: the violation count
    and whether the caller is blocked are the same, and the bucket is the
    same unless it was dropped as idle. *)
Definition same_for (caller : Z) (g g' : Graha) : Prop :=
  (_cache (_spam_cooldown_mapping g') !! caller = _cache (_spam_cooldown_mapping g) !! caller
   ∨ _cache (_spam_cooldown_mapping g') !! caller = None)
  ∧ _spammer_count g' !! caller = _spammer_count g !! caller
  ∧ is_blocked g' caller = is_blocked g caller.

(** The caller's bucket, if the caller has one, is not idle at the clock
    reading [current]: a lookup at that time keeps it. *)
Definition bucket_kept (g : Graha) (caller : Z) (current : Q) : Prop :=
  ∀ b, _cache (_spam_cooldown_mapping g) !! caller = Some b → idle b current = false.


(** The caller's buckets are the bot's: 10 events per 12 seconds, for the
    bucket the caller has and for one created anew. *)
Definition configured (g : Graha) (caller : Z) : Prop :=
  mapping_capacity (_spam_cooldown_mapping g) = 10
  ∧ mapping_period (_spam_cooldown_mapping g) = 12%Q
  ∧ ∀ b, _cache (_spam_cooldown_mapping g) !! caller = Some b →
         capacity b = 10 ∧ period b = 12%Q.

(** The caller's bucket sits in the window opened at [t0] and has counted
    [k] events in it (at least 10, once [k] is past 10). *)
Definition bucket_in_window (g : Graha) (caller : Z) (t0 : Q) (k : nat) : Prop :=
  ∃ b, _cache (_spam_cooldown_mapping g) !! caller = Some b
       ∧ capacity b = 10
       ∧ period b = 12%Q
       ∧ window_start b = Some t0
       ∧ ((k <= 10)%nat → count b = Z.of_nat k)
       ∧ ((10 <= k)%nat → 10 <= count b).

(** The caller's bucket sits in a window opened at one of the times [past]
    and has counted no more events than [past] has from the opening on. *)
Definition bucket_tracks (g : Graha) (caller : Z) (past : list Q) : Prop :=
  ∃ b w, _cache (_spam_cooldown_mapping g) !! caller = Some b
         ∧ window_start b = Some w
         ∧ w ∈ past
         ∧ count b <= Z.of_nat (length (filter (λ x, Qle_bool w x = true) past)).

Section Observations.

Variable resolve_command : Graha → Message → option Command.
Variable new_ray_id : Message → string.
Variable time_time : Message → Q.

(** The mapping after the sweep that the lookup for the message starts
    with. *)
Definition swept (self : Graha) (message : Message) : CooldownMapping :=
  _verify_cache_integrity (_spam_cooldown_mapping self) (time_time message).

(** What the rate limiter answers for the message, and the caller's bucket
    after the check. *)
Definition rate_check (self : Graha) (message : Message) : option Q * Cooldown :=
  update_rate_limit
    (bucket_for (swept self message) (user_id (author message)))
    (created_at message).

(** The bot after a rate check, given the blocklist and the violation
    counts the step leaves. *)
Definition after_check (self : Graha) (message : Message)
    (blacklist : gmap string bool) (counts : gmap Z Z) : Graha :=
  mkGraha (_prefix_data self) blacklist
    (mkCooldownMapping (mapping_capacity (_spam_cooldown_mapping self))
       (mapping_period (_spam_cooldown_mapping self))
       (<[user_id (author message) := snd (rate_check self message)]>
          (_cache (swept self message))))
    counts (_error_handling_cooldown self) (owner_id self) (user self).

(** The check of the message opens a new window: the message falls outside
    the window of the bucket its author is given (or the bucket has no
    window yet). *)
Definition opens_window (g : Graha) (m : Message) : Prop :=
  outside_window (bucket_for (swept g m) (user_id (author m))) (created_at m) = true.

(** The times of the messages of a caller that reach the rate limiter in the
    run of the feed. *)
Definition check_times (caller : Z) (self : Graha) (feed : list GatewayEvent) : list Q :=
  map created_at (checks_of resolve_command new_ray_id time_time caller self feed).

(** The caller's messages that reach the rate limiter lie in one window: the
    first opens a window at [t0] and every one comes before [t0 + 12]; and
    once the window is open, no lookup finds the caller's bucket idle. *)
Definition in_one_window (caller : Z) (t0 : Q) (k : nat) (g : Graha) (m : Message) : Prop :=
  (user_id (author m) = caller →
   (k = 0%nat → opens_window g m ∧ created_at m = t0)
   ∧ (created_at m < t0 + 12)%Q)
  ∧ ((0 < k)%nat → bucket_kept g caller (time_time m)).

End Observations.

(** ** Sample data *)

Definition sample_command : Command := mkCommand "ping" "ping".

(** A command table with the one command [ping], behind the default prefix. *)
Definition sample_resolve (g : Graha) (m : Message) : option Command :=
  if String.prefix "gt ping" (content m) then Some sample_command else None.

Definition sample_ray (m : Message) : string := pretty (message_id m).

(** Every message is processed at the very time it was created. *)
Definition sample_clock (m : Message) : Q := created_at m.

(** [str.casefold] on the ASCII letters and on two characters beyond. *)
Definition sample_casefold (character : string) : string :=
  match character with
  | String c EmptyString =>
      let n := N_of_ascii c in
      if ((65 <=? n) && (n <=? 90))%N
      then String (ascii_of_N (n + 32)) EmptyString
      else character
  | _ =>
      if String.eqb character "É" then "é"%string
      else if String.eqb character "ß" then "ss"%string
      else character
  end.

(** [textwrap.shorten] on a text that has single spaces only and fits the
    width. *)
Definition sample_shorten (text : string) (width : Z) : string := text.

Definition sample_owner : User := mkUser 1 false "Raha".
Definition sample_member : User := mkUser 2 false "Alisaie".
Definition sample_bot_account : User := mkUser 3 true "Helper".
Definition sample_accented : User := mkUser 5 false "Émile".

(** The bot (user id 90) after [setup_hook], owned by user 1. *)
Definition sample_graha : Graha := setup_hook (init 90) 1.

Definition sample_message (u : User) (t : Q) : Message :=
  mkMessage 100 u (Some 50) 60 "gt ping" t [].

Definition sample_feed (u : User) (ts : list Q) : list GatewayEvent :=
  map (λ t, MessageCreate (sample_message u t)) ts.

(** Ten messages of a user at times 0 to 9: they fill the user's window. *)
Definition ten_messages (u : User) : list GatewayEvent :=
  sample_feed u [0; 1; 2; 3; 4; 5; 6; 7; 8; 9]%Q.

Definition sample_full (u : User) : Graha :=
  fst (run sample_resolve sample_ray sample_clock sample_graha (ten_messages u)).

(** A feed in which the member's messages come six to a window, between
    events of others. *)
Definition sparse_feed : list GatewayEvent :=
  [MessageCreate (sample_message sample_member 0);
   MessageCreate (sample_message sample_owner 1);
   MessageCreate (sample_message sample_member 2);
   MessageCreate (sample_message sample_member 4);
   MessageEdit (sample_message sample_owner 1) (sample_message sample_owner 1);
   MessageCreate (sample_message sample_member 6);
   MessageCreate (sample_message sample_member 8);
   MessageCreate (sample_message sample_member 10);
   MessageCreate (sample_message sample_member 12);
   MessageCreate (sample_message sample_member 14);
   MessageCreate (sample_message sample_member 16);
   MessageCreate (sample_message sample_member 18);
   MessageCreate (sample_message sample_member 20);
   MessageCreate (sample_message sample_member 22)].

(** Twelve messages of the member within one second, between events of
    others. *)
Definition burst_feed : list GatewayEvent :=
  sample_feed sample_member [3; 3; 3; 3; 3]%Q
  ++ [MessageCreate (sample_message sample_owner 3)]
  ++ sample_feed sample_member [3; 3; 3; 3; 3; 3.5; 4]%Q.

(** Five more messages of a user whose window is full, between events of
    others. *)
Definition five_more (u : User) : list GatewayEvent :=
  [MessageCreate (sample_message u 10);
   MessageCreate (sample_message sample_bot_account 10);
   MessageCreate (sample_message u 10);
   MessageCreate (sample_message u 10.5);
   MessageEdit (sample_message u 10) (sample_message u 10);
   MessageCreate (sample_message u 11);
   MessageCreate (sample_message u 11)].

Definition eleven_prefixes : list string :=
  ["a"; "b"; "c"; "d"; "e"; "f"; "g"; "h"; "i"; "j"; "k"]%string.

(** The bot with two custom prefixes stored for guild 50. *)
Definition sample_prefixed : Graha :=
  fst (_set_guild_prefixes sample_graha 50 (Some ["!"; "?"]%string)).

Definition with_embeds (m : Message) (es : list string) : Message :=
  mkMessage (message_id m) (author m) (guild m) (channel m) (content m) (created_at m) es.


(** ** The rest of the bot: raw prefixes and guild joins *)

(** Modelled from the spec: [Config.get(key, default)] called with a default
    that is a value, as [_get_guild_prefixes] does: the stored value, or the
    default when the key is absent. *)
Definition get_or_default {V : Type} (db : gmap string V) (key : Config.Key) (default : V) : V :=
  match Config.get db key (Some default) with
  | Some v => v
  | None => default
  end.

(** [Graha._get_guild_prefixes].  [local_] receives the bot and a proxy object
    that carries nothing but the guild; it is an argument here, its default
    [callable_prefix] reading [message.author], which the proxy does not
    have. *)
Definition _get_guild_prefixes (self : Graha) (guild_id : Z)
    (local_ : Graha → Z → list string) (raw : bool) : list string :=
  if raw
  then get_or_default (_prefix_data self) (Config.KInt guild_id) ["gt "%string]
  else local_ self guild_id.

Inductive GuildAction : Type :=
| Leave (guild_id : Z).                                   (* [guild.leave()] *)

Definition on_guild_join (self : Graha) (guild_id : Z) : Graha * list GuildAction :=
  if is_blocked self guild_id then (self, [Leave guild_id]) else (self, []).

(** *** Further observations *)


Definition is_reaction (e : Effect) : bool :=
  match e with AddReaction _ _ => true | _ => false end.


(** ** Dates and times *)

(** An aware [datetime.datetime] in UTC: the day as its proleptic Gregorian
    ordinal ([toordinal()], day 1 being 0001-01-01) and the time of day.  The
    bounds of [datetime] (years 1 to 9999) are not modelled. *)
Record datetime : Type := mkDatetime {
  ordinal : Z;
  hour : Z;
  minute : Z;
  second : Z;
  microsecond : Z
}.

Definition valid (dt : datetime) : Prop :=
  0 <= hour dt < 24 ∧ 0 <= minute dt < 60 ∧ 0 <= second dt < 60
  ∧ 0 <= microsecond dt < 1000000.

(** The ordinal of a calendar day, as [datetime] computes it. *)
Definition is_leap (year : Z) : bool :=
  (year mod 4 =? 0) && (negb (year mod 100 =? 0) || (year mod 400 =? 0)).

Definition days_before_year (year : Z) : Z :=
  let y := year - 1 in
  y * 365 + y / 4 - y / 100 + y / 400.

Definition days_before_month (year month : Z) : Z :=
  nth (Z.to_nat month) [-1; 0; 31; 59; 90; 120; 151; 181; 212; 243; 273; 304; 334] 0
  + (if (2 <? month) && is_leap year then 1 else 0).

Definition ymd2ord (year month day : Z) : Z :=
  days_before_year year + days_before_month year month + day.

(** A [timedelta] is its length in microseconds. *)
Definition timedelta_days (days : Z) : Z := days * 86400000000.

Definition time_of_day (dt : datetime) : Z :=
  ((hour dt * 60 + minute dt) * 60 + second dt) * 1000000 + microsecond dt.

(** [a - b] *)
Definition since (a b : datetime) : Z :=
  (ordinal a - ordinal b) * 86400000000 + (time_of_day a - time_of_day b).

(** [dt + datetime.timedelta(days=days)] *)
Definition add_days (dt : datetime) (days : Z) : datetime :=
  mkDatetime (ordinal dt + days) (hour dt) (minute dt) (second dt) (microsecond dt).

(** [dt.replace(hour=h, minute=0, second=0, microsecond=0)] *)
Definition replace_hour (dt : datetime) (h : Z) : datetime :=
  mkDatetime (ordinal dt) h 0 0 0.

(** [dt.weekday()]: Monday is 0, Sunday is 6. *)
Definition weekday (dt : datetime) : Z := (ordinal dt + 6) mod 7.

(** Rounding of [n / d] to the nearest integer, ties to the even one, which
    is what [round] does. *)
Definition round_half_even (n d : Z) : Z :=
  let q := n / d in
  let r := n mod d in
  if 2 * r <? d then q
  else if d <? 2 * r then q + 1
  else if Z.even q then q else q + 1.

(** [round(td.total_seconds())], the float of the program taken as exact. *)
Definition rounded_seconds (td : Z) : Z := round_half_even td 1000000.

(** [datetime.datetime.fromtimestamp(ts, tz=utc)]: the timestamp rounded to
    microseconds, counted from 1970-01-01 (ordinal 719163). *)
Definition fromtimestamp (ts : Q) : datetime :=
  let us := round_half_even (Qnum ts * 1000000) (Zpos (Qden ts)) in
  let tod := us mod 86400000000 in
  mkDatetime (719163 + us / 86400000000)
    (tod / 3600000000) (tod / 60000000 mod 60) (tod / 1000000 mod 60) (tod mod 1000000).

(** ** [extensions/resets.py] *)

Definition _get_daily_reset_time (now : datetime) : datetime :=
  let next_reset :=
    if 15 <=? hour now then add_days now 1 else replace_hour now 15 in
  replace_hour next_reset 15.

Definition _get_weekly_reset_time (now : datetime) : datetime :=
  let next_reset :=
    if 1 <=? weekday now
    then add_days now ((1 - weekday now) mod 7)
    else add_days now 1 in
  replace_hour next_reset 8.

(** ** [extensions/fashion_report.py] *)

(** *** [FASHION_REPORT_PATTERN] *)

Definition is_digit (c : ascii) : bool :=
  ((48 <=? N_of_ascii c) && (N_of_ascii c <=? 57))%N.

(** The rest of [s] after the literal [lit], if [s] starts with it. *)
Fixpoint literal (lit s : string) : option string :=
  match lit with
  | EmptyString => Some s
  | String a lit' =>
      match s with
      | String b s' => if Ascii.eqb a b then literal lit' s' else None
      | EmptyString => None
      end
  end.

(** [[0-9]{n}]: exactly [n] digits, and the rest. *)
Fixpoint digits (n : nat) (s : string) : option (string * string) :=
  match n with
  | O => Some (EmptyString, s)
  | S n' =>
      match s with
      | String c s' =>
          if is_digit c
          then match digits n' s' with
               | Some (ds, rest) => Some (String c ds, rest)
               | None => None
               end
          else None
      | EmptyString => None
      end
  end.

(** [[0-9]{1,2}] followed by the pattern [k]: greedy, two digits are tried
    before one. *)
Definition digits_1_2 {A : Type} (s : string) (k : string → string → option A) : option A :=
  match match digits 2 s with
        | Some (ds, rest) => k ds rest
        | None => None
        end with
  | Some a => Some a
  | None =>
      match digits 1 s with
      | Some (ds, rest) => k ds rest
      | None => None
      end
  end.

(** The groups [date] and [week_num] of a match. *)
Record ReportMatch : Type := mkReportMatch {
  date : string;
  week_num : string
}.

(** The pattern matched at the start of [s]. *)
Definition match_here (s : string) : option ReportMatch :=
  match literal "Fashion Report - Full Details - For Week of " s with
  | None => None
  | Some s =>
      digits_1_2 s (λ d1 s,
        match literal "/" s with
        | None => None
        | Some s =>
            digits_1_2 s (λ d2 s,
              match literal "/" s with
              | None => None
              | Some s =>
                  match digits 4 s with
                  | None => None
                  | Some (year, s) =>
                      match literal " (Week " s with
                      | None => None
                      | Some s =>
                          match digits 3 s with
                          | None => None
                          | Some (week, s) =>
                              match literal ")" s with
                              | None => None
                              | Some _ =>
                                  Some (mkReportMatch
                                          (d1 +:+ "/" +:+ d2 +:+ "/" +:+ year) week)
                              end
                          end
                      end
                  end
              end)
        end)
  end.

(** [FASHION_REPORT_PATTERN.search(s)]: the leftmost match. *)
Fixpoint search (s : string) : option ReportMatch :=
  match match_here s with
  | Some m => Some m
  | None =>
      match s with
      | String _ s' => search s'
      | EmptyString => None
      end
  end.

(** [int] of a string of ASCII digits. *)
Definition int_of_digits (s : string) : Z :=
  fold_left (λ acc c, acc * 10 + (Z.of_N (N_of_ascii c) - 48)) (list_ascii_of_string s) 0.

(** *** The cog *)

Definition FASHION_REPORT_START : datetime :=
  mkDatetime (ymd2ord 2018 1 26) 8 0 0 0.

Definition weeks_since_start (dt : datetime) : Z :=
  let td := since dt FASHION_REPORT_START in
  let seconds := rounded_seconds td in
  seconds / (60 * 60 * 24 * 7).

Inductive Colour : Type :=
| green
| dark_orange.

(** One child of the listing: [submission["data"]]. *)
Record Submission : Type := mkSubmission {
  title : string;
  created_utc : Q;
  url : string
}.

(** The value returned, or the [ValueError] raised. *)
Inductive Fetched (A : Type) : Type :=
| Fetch (a : A)
| ValueError (msg : string).

Arguments Fetch {A} a.
Arguments ValueError {A} msg.

Inductive FashionEmbed : Type :=
| ReportEmbed (title_ url_ : string) (colour : Colour) (description : string) (image : string)
| PlainEmbed (description : string).

(** Lines 103 to 113 of [filter_submissions]: the event the report counts
    down to, with its wording and colour. *)
Definition upcoming (now : datetime) : datetime * string * Colour :=
  let '(delta, fmt, colour) :=               (* [delta] in days *)
    if (0 <? weekday now) && (weekday now <? 4)
    then ((4 - weekday now) mod 7, "Available"%string, green)
    else ((0 - weekday now) mod 7, "Resets"%string, dark_orange) in
  let upcoming_event := add_days now delta in
  (replace_hour upcoming_event 8, fmt, colour).

Section Report.

(** [plural] of [utilities.formats], as the f-string formats it
    ([plural n unit] for [{plural(n):unit}]), and [str.title]. *)
Variable plural : Z → string → string.
Variable str_title : string → string.

Definition humanify_delta (td : Z) (format : string) : string :=
  let seconds := rounded_seconds td in
  let days := seconds / (60 * 60 * 24) in
  let seconds := seconds mod (60 * 60 * 24) in
  let hours := seconds / (60 * 60) in
  let seconds := seconds mod (60 * 60) in
  let minutes := seconds / 60 in
  let seconds := seconds mod 60 in
  (str_title format +:+ " in " +:+ plural days "day" +:+ ", " +:+ plural hours "hour"
   +:+ ", " +:+ plural minutes "minute" +:+ " and " +:+ plural seconds "second" +:+ ".")%string.

(** [now] is the argument, [None] when the caller gave none; [clock] is what
    [datetime.datetime.now] reads. *)
Fixpoint filter_submissions (now : option datetime) (clock : datetime)
    (children : list Submission) : Fetched (string * string * string * Colour) :=
  match children with
  | [] => ValueError "Unabled to fetch the reddit post details."
  | submission :: rest =>
      match search (title submission) with
      | None => filter_submissions now clock rest
      | Some m =>
          let now := match now with Some n => n | None => clock end in
          if negb (weeks_since_start now =? int_of_digits (week_num m))
          then filter_submissions (Some now) clock rest
          else
            let created := fromtimestamp (created_utc submission) in
            if timedelta_days 7 <? since now created
            then filter_submissions (Some now) clock rest
            else
              let '(upcoming_event, fmt, colour) := upcoming now in
              let reset_str := humanify_delta (since upcoming_event now) fmt in
              Fetch (("Fashion Report details for week of " +:+ date m +:+ " (Week "
                      +:+ week_num m +:+ ")")%string,
                     reset_str, url submission, colour)
      end
  end.

Definition _gen_fashion_embed (now : option datetime) (clock : datetime)
    (children : list Submission) : Fetched FashionEmbed :=
  match filter_submissions now clock children with
  | Fetch (prose, reset, url_, colour) => Fetch (ReportEmbed prose url_ colour reset url_)
  | ValueError msg => ValueError msg
  end.

(** The command [fashionreport]: the embed it sends. *)
Definition fashion_report (clock : datetime) (children : list Submission) : FashionEmbed :=
  match _gen_fashion_embed None clock children with
  | Fetch embed => embed
  | ValueError _ => PlainEmbed "Seems the post for this week isn't up yet."
  end.

End Report.

(** A submission the loop of [filter_submissions] stops at: its title matches,
    its week is the current one, and it is at most seven days old. *)
Definition qualifies (now : datetime) (submission : Submission) : bool :=
  match search (title submission) with
  | None => false
  | Some m =>
      (weeks_since_start now =? int_of_digits (week_num m))
      && negb (timedelta_days 7 <? since now (fromtimestamp (created_utc submission)))
  end.

(** ** Start-up ([main] of [bot.py]) *)

(** A path found by [rglob]: its parts, and what the file system says of it
    and of its parent. *)
Record PathEntry : Type := mkPathEntry {
  parts : list string;
  is_dir : bool;
  parent_is_dir : bool
}.

(** [path.name] and [path.parent.name] *)
Definition path_name (p : PathEntry) : string := List.last (parts p) EmptyString.
Definition parent_name (p : PathEntry) : string :=
  List.last (removelast (parts p)) EmptyString.

(** [".".join(parts)] *)
Fixpoint join_dots (l : list string) : string :=
  match l with
  | [] => EmptyString
  | [x] => x
  | x :: l' => (x +:+ "." +:+ join_dots l')%string
  end.

(** [s.removesuffix(suffix)] *)
Fixpoint removesuffix (suffix s : string) : string :=
  if String.eqb s suffix then EmptyString
  else match s with
       | EmptyString => EmptyString
       | String c s' => String c (removesuffix suffix s')
       end.

Inductive Startup : Type :=
| Loaded (ext : string)         (* [load_extension] returned *)
| Failed (ext : string)         (* [load_extension] raised; [LOGGER.exception] *)
| Start.                        (* [bot.start()] *)

Inductive Ending : Type :=
| Started                        (* [bot.start()] was reached *)
| ReturnedEarly                  (* the [return] inside the second loop *)
| Uncaught (ext : string).       (* [load_extension] raised outside a [try] *)

(** The file is left to its package: it is an [ext-] directory or sits right
    inside one. *)
Definition skipped (file : PathEntry) : bool :=
  (is_dir file && String.prefix "ext-" (path_name file))
  || (parent_is_dir file && String.prefix "ext-" (parent_name file)).

Section Main.

(** Whether [bot.load_extension(ext)] raises. *)
Variable raises : string → bool.

Definition try_load (ext : string) : Startup :=
  if raises ext then Failed ext else Loaded ext.

(** The first loop, over [path.rglob("[!_]*.py")]. *)
Fixpoint load_files (files : list PathEntry) : list Startup :=
  match files with
  | [] => []
  | file :: files' =>
      if skipped file then load_files files'
      else
        let ext := removesuffix ".py" (join_dots (parts file)) in
        try_load ext :: load_files files'
  end.

(** The second loop, over [path.rglob("ext-*")], and what follows it. *)
Fixpoint load_modules (directories : list PathEntry) : list Startup * Ending :=
  match directories with
  | [] => ([Start], Started)
  | directory :: directories' =>
      if negb (is_dir directory) then ([], ReturnedEarly)
      else
        let module := join_dots (parts directory) in
        let '(log, ending) := load_modules directories' in
        (try_load module :: log, ending)
  end.

(** The body of [main] inside [with SetupLogging()], given what the two
    [rglob] calls yield. *)
Definition main (files directories : list PathEntry) : list Startup * Ending :=
  if raises "jishaku" then ([], Uncaught "jishaku")
  else
    let '(log, ending) := load_modules directories in
    (Loaded "jishaku" :: load_files files ++ log, ending).

End Main.

(** Observations on matches. *)
Fixpoint all_digits (s : string) : bool :=
  match s with
  | EmptyString => true
  | String c s' => is_digit c && all_digits s'
  end.

(** ** More sample data *)

Definition nameless : User := mkUser 4 false "".

(** An author whose display name starts with a sharp s. *)
Definition sample_sharp : User := mkUser 6 false "ßen".

Definition private_message (u : User) : Message :=
  mkMessage 101 u None 61 "gt ping" 0 [].

Definition ten_prefixes : list string :=
  ["a"; "b"; "c"; "d"; "e"; "f"; "g"; "h"; "i"; "j"]%string.

(** Some chatter, and an edit of it, none of it a command. *)
Definition chatter (u : User) (text : string) : Message :=
  mkMessage 102 u (Some 50) 60 text 0 [].

Definition chatter_feed : list GatewayEvent :=
  [MessageCreate (chatter sample_member "hello");
   MessageCreate (chatter sample_owner "gt pong");
   MessageEdit (chatter sample_owner "gt pong") (chatter sample_owner "gt pon")].

(** Tuesday 2022-07-12, 10:30:15.25 UTC, in week 232 of the fashion report. *)
Definition sample_now : datetime := mkDatetime (ymd2ord 2022 7 12) 10 30 15 250000.

Definition sample_plural (n : Z) (unit : string) : string :=
  let ending := if Z.abs n =? 1 then EmptyString else "s"%string in
  (pretty n +:+ " " +:+ unit +:+ ending)%string.

Definition sample_listing : list Submission :=
  [mkSubmission "Weekly questions thread" 1657600000 "https://example.org/questions";
   mkSubmission "Fashion Report - Full Details - For Week of 7/1/2022 (Week 231)"
     1656662400 "https://example.org/231.png";
   mkSubmission "[OC] Fashion Report - Full Details - For Week of 7/8/2022 (Week 232)"
     1657267200 "https://example.org/232.png"].

Definition sample_files : list PathEntry :=
  [mkPathEntry ["extensions"; "resets.py"]%string false true;
   mkPathEntry ["extensions"; "ext-xiv"; "worlds.py"]%string false true;
   mkPathEntry ["extensions"; "fashion_report.py"]%string false true].

Definition sample_directories : list PathEntry :=
  [mkPathEntry ["extensions"; "ext-xiv"]%string true true].

(** A file whose name starts with [ext-], found by the second search. *)
Definition stray_directories : list PathEntry :=
  [mkPathEntry ["extensions"; "ext-notes.txt"]%string false true;
   mkPathEntry ["extensions"; "ext-xiv"]%string true true].

(** [resets] fails to load, everything else loads. *)
Definition sample_raises (ext : string) : bool := String.eqb ext "extensions.resets".

(** Friday 2022-07-08, 08:00:00 UTC, and Friday 2037-03-27, 08:00:00 UTC. *)
Definition sample_friday : datetime := mkDatetime (ymd2ord 2022 7 8) 8 0 0 0.
Definition thousandth_friday : datetime := mkDatetime (ymd2ord 2037 3 27) 8 0 0 0.

Definition late_listing : list Submission :=
  [mkSubmission "Fashion Report - Full Details - For Week of 3/27/2037 (Week 1000)"
     2121840000 "https://example.org/1000.png"].

(** * Properties *)

(** ** The store *)

Lemma contains_put {V} (db : gmap string V) (key : Config.Key) (v : V) :
  Config.contains (Config.put db key v) key = true.
Proof.
  unfold Config.contains, Config.put.
  apply bool_decide_eq_true. rewrite lookup_insert_eq. eauto.
Qed.

Lemma contains_put_mono {V} (db : gmap string V) (key key' : Config.Key) (v : V) :
  Config.contains db key' = true → Config.contains (Config.put db key v) key' = true.
Proof.
  unfold Config.contains, Config.put. rewrite !bool_decide_eq_true.
  intros [x Hx]. destruct (decide (Config.str key = Config.str key')) as [->|Hne].
  - rewrite lookup_insert_eq. eauto.
  - rewrite lookup_insert_ne by done. eauto.
Qed.

Lemma contains_put_ne {V} (db : gmap string V) (i j : Z) (v : V) :
  i ≠ j →
  Config.contains (Config.put db (Config.KInt i) v) (Config.KInt j)
  = Config.contains db (Config.KInt j).
Proof.
  intros Hne. unfold Config.contains, Config.put. simpl.
  rewrite lookup_insert_ne; [done|].
  intros Heq. apply Hne. by apply (inj pretty).
Qed.

Lemma get_put_str {V} (db : gmap string V) (i : Z) (v : V) (d : option V) :
  Config.get (Config.put db (Config.KInt i) v) (Config.KStr (pretty i)) d = Some v.
Proof. unfold Config.get, Config.put. simpl. by rewrite lookup_insert_eq. Qed.

(** ** C9: the blocklist round trip *)

(** C9.  After [_blacklist_add] of an id, the id is blocked; after
    [_blacklist_remove] of an id, it is not; and [_blacklist_remove] returns
    normally on every bot and id, so also when the id was never added. *)
Theorem blacklist_round_trip (self : Graha) (object_id : Z) :
  is_blocked (_blacklist_add self object_id) object_id = true
  ∧ is_blocked (fst (_blacklist_remove self object_id)) object_id = false
  ∧ snd (_blacklist_remove self object_id) = Returned tt
  ∧ is_blocked (fst (_blacklist_remove (_blacklist_add self object_id) object_id)) object_id
    = false.
Proof.
  assert (Hrm : ∀ g, is_blocked (fst (_blacklist_remove g object_id)) object_id = false
                     ∧ snd (_blacklist_remove g object_id) = Returned tt).
  { intros g. unfold _blacklist_remove, Config.remove, is_blocked, Config.contains.
    cbn [Config.str].
    destruct (_blacklist_data g !! pretty object_id) as [v|] eqn:Hlk;
      simpl; split; try done.
    - apply bool_decide_eq_false. rewrite lookup_delete_eq. by intros [? ?].
    - apply bool_decide_eq_false. rewrite Hlk. by intros [? ?]. }
  split; [apply contains_put|].
  split; [apply Hrm|]. split; apply Hrm.
Qed.

(** ** C5 and C6: prefixes *)

Lemma substring_prefix (n : nat) (t : string) :
  ∃ rest, t = (String.substring 0 n t +:+ rest)%string.
Proof.
  revert t. induction n as [|n IH]; intros t.
  - exists t. by destruct t.
  - destruct t as [|a t]; [by exists EmptyString|].
    destruct (IH t) as [rest Hrest]. exists rest.
    change (String a t = String a (String.substring 0 n t +:+ rest)).
    by rewrite <- Hrest.
Qed.

(** [display_name[0]] raises [IndexError] on the empty name and is otherwise
    a non-empty piece the name starts with. *)
Lemma first_character_outcome (s : string) :
  (s = EmptyString → first_character s = Raised IndexError)
  ∧ (s ≠ EmptyString →
     ∃ character rest, first_character s = Returned character
                       ∧ s = (character +:+ rest)%string
                       ∧ character ≠ EmptyString).
Proof.
  split; [by intros ->|]. intros Hne. destruct s as [|c s]; [done|].
  destruct (substring_prefix (utf8_width c) (String c s)) as [rest Hrest].
  eexists _, rest. split; [reflexivity|]. split; [exact Hrest|].
  unfold utf8_width. by repeat case_match.
Qed.

(** A display name that starts with an ASCII character has that character
    as its first. *)
Lemma first_character_ascii (c : ascii) (rest : string) :
  (N_of_ascii c < 128)%N →
  first_character (String c rest) = Returned (String c EmptyString).
Proof.
  intros Hc. unfold first_character, utf8_width.
  destruct (N_of_ascii c <? 192)%N eqn:Hlt.
  - simpl. by destruct rest.
  - apply N.ltb_ge in Hlt. lia.
Qed.

Section PrefixProperties.

Variable str_casefold : string → string.

Local Abbreviation prefixes_for := (callable_prefix str_casefold).

(** C6.  For a message from a group whose author's display name has the
    first character [character], [callable_prefix] returns the mention
    forms, then the group's stored prefixes (the default ["gt "] when the
    entry is absent or empty), then the author-derived prefix, which is the
    case-folded [character] and a space; so the mention forms and the
    author-derived prefix are always among the result, and the default prefix
    is whenever the group has no custom prefixes. *)
Theorem callable_prefix_guild (self : Graha) (message : Message) (guild_id : Z)
    (character : string) :
  guild message = Some guild_id →
  first_character (display_name (author message)) = Returned character →
  let stored := _prefix_data self !! pretty guild_id in
  let username_prefix := (str_casefold character +:+ " ")%string in
  ∃ prefixes,
    prefixes_for self message = Returned prefixes
    ∧ prefixes = when_mentioned self
                 ++ match stored with
                    | None | Some [] => ["gt "%string]
                    | Some l => l
                    end
                 ++ [username_prefix]
    ∧ (∀ mention, mention ∈ when_mentioned self → mention ∈ prefixes)
    ∧ username_prefix ∈ prefixes
    ∧ (∀ l, stored = Some l → ∀ p, p ∈ l → p ∈ prefixes)
    ∧ (stored = None ∨ stored = Some [] → "gt "%string ∈ prefixes).
Proof.
  intros Hguild Hname stored username_prefix.
  unfold callable_prefix. rewrite Hname, Hguild.
  unfold Config.get. cbn [Config.str]. fold stored. fold username_prefix.
  unfold when_mentioned_or.
  eexists. split; [reflexivity|].
  split.
  { by destruct stored as [[|p l]|]. }
  split; [intros mention Hin; apply elem_of_app; by left|].
  split; [rewrite !elem_of_app, list_elem_of_singleton; auto|].
  split.
  - intros l Hl p Hp. rewrite Hl. rewrite !elem_of_app.
    destruct l as [|q l]; [by apply elem_of_nil in Hp|auto].
  - intros Hs. rewrite !elem_of_app.
    right; left. destruct Hs as [-> | ->]; apply list_elem_of_singleton; reflexivity.
Qed.

(** C5.  [_set_guild_prefixes] with more than 10 prefixes raises
    [TooManyArguments] and leaves the bot, hence the group's stored prefixes,
    as it was; with an empty list (or [None]) it returns normally, and after
    it prefix resolution for the group gives the default prefix ["gt "]
    between the mention forms and the author-derived prefix. *)
Theorem set_guild_prefixes_limit (self : Graha) (guild_id : Z) :
  (∀ prefixes : list string,
      (10 < length prefixes)%nat →
      ∃ msg, _set_guild_prefixes self guild_id (Some prefixes)
             = (self, Raised (TooManyArguments msg)))
  ∧ (∀ cleared, cleared = None ∨ cleared = Some [] →
      snd (_set_guild_prefixes self guild_id cleared) = Returned tt
      ∧ ∀ message character,
          guild message = Some guild_id →
          first_character (display_name (author message)) = Returned character →
          prefixes_for (fst (_set_guild_prefixes self guild_id cleared)) message
          = Returned (when_mentioned self
                      ++ ["gt "%string; (str_casefold character +:+ " ")%string])).
Proof.
  split.
  - intros prefixes Hlen. unfold _set_guild_prefixes.
    destruct prefixes as [|p l]; [simpl in Hlen; lia|].
    destruct (10 <? length (p :: l))%nat eqn:Hlt; [eauto|].
    apply Nat.ltb_ge in Hlt. lia.
  - intros cleared Hc.
    assert (Hstep : _set_guild_prefixes self guild_id cleared
                    = (with_prefix_data self
                         (Config.put (_prefix_data self) (Config.KInt guild_id) []),
                       Returned tt)).
    { by destruct Hc as [-> | ->]. }
    rewrite Hstep. split; [done|].
    intros message character Hguild Hname.
    unfold callable_prefix. rewrite Hname, Hguild. cbn [fst _prefix_data with_prefix_data].
    by rewrite get_put_str.
Qed.

End PrefixProperties.

(** ** C4: the error handler *)

Section ErrorProperties.

Variable textwrap_shorten : string → Z → string.

Local Abbreviation command_error := (on_command_error textwrap_shorten).

(** C4, as the code has it.  For an error raised inside a command body,
    handed over as [CommandInvokeError], with a command bound and the error
    not marked handled, [on_command_error] adds the reaction, logs locally
    unless the original is an [HTTPException], and returns: it sends no
    caller-facing reply and no diagnostic to the operator channel. *)
Theorem invoke_error_sends_nothing (self : Graha) (now : Q) (message : Message)
    (cmd : Command) (ray : string) (origin_ : Exception) :
  let ctx := mkContext message (Some cmd) false ray in
  let '(self', effects, outcome) := command_error self now ctx (CommandInvokeError origin_) in
  self' = self
  ∧ outcome = Returned tt
  ∧ effects = AddReaction message "❌"
              :: match origin_ with
                 | HTTPException => []
                 | _ => [LogException (name cmd) ray]
                 end
  ∧ length (filter is_reply effects) = 0%nat
  ∧ length (filter is_operator_diagnostic effects) = 0%nat.
Proof.
  simpl. by destruct origin_.
Qed.

(** The sibling path: any other command error does send one diagnostic with
    the ray id in its footer and one reply quoting the same ray id. *)
Lemma other_error_reports_once (self : Graha) (now : Q) (message : Message)
    (cmd : Command) (ray what : string) :
  let ctx := mkContext message (Some cmd) false ray in
  command_error self now ctx (OtherCommandError what)
  = (self,
     [AddReaction message "❌";
      WebhookSend (CommandErrorEmbed (inl (OtherCommandError what)) (qualified_name cmd)
                     (author message) (channel message) (guild message)
                     (textwrap_shorten (content message) 512)
                     ("Ray ID: " +:+ ray)%string);
      Send ctx (ray_quote ray)],
     Returned tt).
Proof. reflexivity. Qed.

End ErrorProperties.

(** ** The rate limiter *)

Lemma truthy_positive (r : Q) : (0 < r)%Q → truthy (Some r) = true.
Proof.
  intros Hr. simpl. apply negb_true_iff.
  destruct (Qeq_bool r 0) eqn:He; [|done].
  apply Qeq_bool_iff in He. lra.
Qed.

Lemma truthy_zero (r : Q) : (r == 0)%Q → truthy (Some r) = false.
Proof.
  intros Hr. simpl. apply negb_false_iff. by apply Qeq_bool_iff.
Qed.

Lemma outside_window_iff (b : Cooldown) (w t : Q) :
  window_start b = Some w →
  outside_window b t = true ↔ (w + period b < t)%Q.
Proof.
  intros Hw. unfold outside_window. rewrite Hw.
  destruct (Qlt_le_dec (w + period b) t) as [Hlt|Hle]; split; try done.
  intros Hlt. lra.
Qed.

(** An event outside the window opens a new window and, the capacity being
    at least one, is allowed. *)
Lemma update_rate_limit_outside (b : Cooldown) (t : Q) :
  outside_window b t = true →
  1 <= capacity b →
  update_rate_limit b t = (None, mkCooldown (Some t) 1 (capacity b) (period b) t).
Proof.
  intros Hout Hcap. unfold update_rate_limit. rewrite Hout. simpl.
  change (0 + 1) with 1.
  destruct (capacity b <? 1) eqn:Hlt; [|done].
  apply Z.ltb_lt in Hlt. lia.
Qed.

(** An event inside the window is counted; it is allowed while the count
    stays within the capacity, and otherwise answered with the time left
    until the window closes. *)
Lemma update_rate_limit_inside (b : Cooldown) (w t : Q) :
  window_start b = Some w →
  outside_window b t = false →
  update_rate_limit b t
  = (if capacity b <? count b + 1 then Some (w + period b - t)%Q else None,
     mkCooldown (Some w) (count b + 1) (capacity b) (period b) t).
Proof.
  intros Hw Hin. unfold update_rate_limit. rewrite Hin. simpl. rewrite Hw.
  by destruct (capacity b <? count b + 1).
Qed.

Lemma update_rate_limit_settings (b : Cooldown) (t : Q) :
  capacity (snd (update_rate_limit b t)) = capacity b
  ∧ period (snd (update_rate_limit b t)) = period b.
Proof. unfold update_rate_limit. by repeat case_match. Qed.

Lemma idle_iff (b : Cooldown) (current : Q) :
  idle b current = false ↔ (current <= _last b + period b)%Q.
Proof.
  unfold idle. destruct (Qlt_le_dec (_last b + period b) current) as [Hlt|Hle].
  - split; [done|]. intros Hle. lra.
  - done.
Qed.

(** What the sweep leaves of a caller's entry: the bucket, unless it is
    idle. *)
Lemma verify_cache_integrity_lookup (mapping : CooldownMapping) (current : Q) (caller : Z) :
  _cache (_verify_cache_integrity mapping current) !! caller
  = match _cache mapping !! caller with
    | Some b => if idle b current then None else Some b
    | None => None
    end.
Proof.
  unfold _verify_cache_integrity. cbn [_cache].
  destruct (_cache mapping !! caller) as [b|] eqn:Hb.
  - destruct (idle b current) eqn:Hidle.
    + apply map_lookup_filter_None. right. intros x Hx. simpl.
      rewrite Hb in Hx. injection Hx as <-. by rewrite Hidle.
    + apply map_lookup_filter_Some. by split.
  - apply map_lookup_filter_None. by left.
Qed.

(** ** Windows of event times *)

Lemma nondecreasing_app (past fut : list Q) :
  nondecreasing (past ++ fut) →
  nondecreasing fut ∧ ∀ x y, x ∈ past → y ∈ fut → (x <= y)%Q.
Proof.
  induction past as [|a past IH]; simpl.
  - intros H. split; [done|]. intros x y Hx. by apply elem_of_nil in Hx.
  - intros [Ha Hrest]. destruct (IH Hrest) as [Hfut Hle]. split; [done|].
    intros x y Hx Hy. apply elem_of_cons in Hx as [-> | Hx]; [|by apply Hle].
    rewrite Forall_forall in Ha. apply Ha. apply elem_of_app. by right.
Qed.

Lemma count_window_app (per s : Q) (l1 l2 : list Q) :
  count_window per s (l1 ++ l2) = (count_window per s l1 + count_window per s l2)%nat.
Proof. unfold count_window. by rewrite filter_app, length_app. Qed.

Lemma in_window_iff (per s t : Q) :
  in_window per s t = true ↔ (s <= t)%Q ∧ (t < s + per)%Q.
Proof.
  unfold in_window. rewrite andb_true_iff, negb_true_iff, Qle_bool_iff.
  split; intros [H1 H2]; (split; [done|]).
  - destruct (Qlt_le_dec t (s + per)) as [Hlt|Hle]; [done|].
    apply Qle_bool_iff in Hle. congruence.
  - destruct (Qle_bool (s + per) t) eqn:He; [|done].
    apply Qle_bool_iff in He. lra.
Qed.

Lemma count_window_cons_in (per s t : Q) (l : list Q) :
  (s <= t)%Q → (t < s + per)%Q →
  count_window per s (t :: l) = S (count_window per s l).
Proof.
  intros H1 H2. unfold count_window.
  rewrite filter_cons_True; [done|]. by apply in_window_iff.
Qed.

(** Among times that all come before the window closes, the window holds
    exactly those from its opening on. *)
Lemma count_window_before_close (per s : Q) (l : list Q) :
  (∀ x, x ∈ l → (x < s + per)%Q) →
  count_window per s l = length (filter (λ x, Qle_bool s x = true) l).
Proof.
  unfold count_window. induction l as [|a l IH]; intros Hall; [done|].
  assert (Ha : (a < s + per)%Q) by (apply Hall; left).
  assert (Hl : ∀ x, x ∈ l → (x < s + per)%Q) by (intros x Hx; apply Hall; by right).
  destruct (Qle_bool s a) eqn:Hsa.
  - rewrite !filter_cons_True; try done.
    + simpl. by rewrite IH.
    + apply in_window_iff. split; [by apply Qle_bool_iff|done].
  - rewrite !filter_cons_False; try by rewrite ?Hsa.
    + by apply IH.
    + intros [Hle _]%in_window_iff. apply Qle_bool_iff in Hle. congruence.
Qed.

Lemma length_filter_snoc (w t : Q) (past : list Q) :
  (length (filter (λ x, Qle_bool w x = true) past)
   <= length (filter (λ x, Qle_bool w x = true) (past ++ [t])))%nat
  ∧ ((w <= t)%Q →
     length (filter (λ x, Qle_bool w x = true) (past ++ [t]))
     = S (length (filter (λ x, Qle_bool w x = true) past))).
Proof.
  rewrite filter_app, length_app. split; [lia|].
  intros Hle. rewrite filter_cons_True by (by apply Qle_bool_iff). simpl. lia.
Qed.

Lemma outside_window_later (b : Cooldown) (t t' : Q) :
  outside_window b t = true → (t <= t')%Q → outside_window b t' = true.
Proof.
  unfold outside_window. destruct (window_start b) as [w|]; [|done].
  destruct (Qlt_le_dec (w + period b) t) as [Hlt|]; [|done]. intros _ Hle.
  destruct (Qlt_le_dec (w + period b) t') as [|Hge]; [done|]. lra.
Qed.

(** ** The dispatch step *)

Lemma get_bucket_spec (mapping : CooldownMapping) (message : Message) (current : Q) :
  let key := user_id (author message) in
  let mapping' := _verify_cache_integrity mapping current in
  fst (get_bucket mapping message current) = Some (bucket_for mapping' key)
  ∧ mapping_capacity (snd (get_bucket mapping message current)) = mapping_capacity mapping
  ∧ mapping_period (snd (get_bucket mapping message current)) = mapping_period mapping
  ∧ _cache (snd (get_bucket mapping message current))
    = <[key := bucket_for mapping' key]> (_cache mapping').
Proof.
  intros key mapping'. unfold get_bucket, bucket_for. fold mapping'. fold key.
  destruct (_cache mapping' !! key) as [b|] eqn:Hb; cbn [fst snd default].
  - repeat split; try done. by rewrite insert_id.
  - done.
Qed.

Section DispatchProperties.

Variable resolve_command : Graha → Message → option Command.
Variable new_ray_id : Message → string.
Variable time_time : Message → Q.

Local Abbreviation context_of := (get_context resolve_command new_ray_id).
Local Abbreviation process := (process_commands resolve_command new_ray_id time_time).
Local Abbreviation message_created := (on_message resolve_command new_ray_id time_time).
Local Abbreviation message_edited := (on_message_edit resolve_command new_ray_id time_time).
Local Abbreviation handled := (handle resolve_command new_ray_id time_time).
Local Abbreviation ran := (run resolve_command new_ray_id time_time).
Local Abbreviation reaches := (reaches_rate_check resolve_command).
Local Abbreviation checked_by := (checked resolve_command).
Local Abbreviation checks := (checks_of resolve_command new_ray_id time_time).
Local Abbreviation each := (each_check resolve_command new_ray_id time_time).
Local Abbreviation check := (rate_check time_time).
Local Abbreviation after := (after_check time_time).
Local Abbreviation sweep := (swept time_time).
Local Abbreviation opens := (opens_window time_time).

Lemma process_commands_skip (self : Graha) (message : Message) :
  reaches self message = false →
  process self message = (self, []).
Proof.
  unfold reaches_rate_check, process_commands. simpl.
  unfold ctx_author, ctx_guild. simpl.
  destruct (resolve_command self message); [|done].
  destruct (is_blocked self (user_id (author message))); [done|].
  destruct (guild message) as [gid|]; simpl; [|done].
  by destruct (is_blocked self gid).
Qed.

Lemma process_commands_checked (self : Graha) (message : Message) :
  reaches self message = true →
  let caller := user_id (author message) in
  let ctx := context_of self message in
  let retry_after := fst (check self message) in
  process self message =
    if truthy retry_after && bool_decide (Some caller ≠ owner_id self)
    then
      if 5 <=? violations self caller + 1
      then (after self message
              (Config.put (_blacklist_data self) (Config.KInt caller) true)
              (delete caller (_spammer_count self)),
            _log_spammer ctx message (default 0%Q retry_after) true)
      else (after self message (_blacklist_data self)
              (<[caller := violations self caller + 1]> (_spammer_count self)),
            _log_spammer ctx message (default 0%Q retry_after) false)
    else (after self message (_blacklist_data self)
            (delete caller (_spammer_count self)),
          [Invoke ctx]).
Proof.
  unfold reaches_rate_check, process_commands. simpl.
  unfold ctx_author, ctx_guild. simpl.
  destruct (resolve_command self message) as [cmd|]; [|done].
  destruct (is_blocked self (user_id (author message))); [done|].
  intros Hguild.
  assert (Hg : match guild message with
               | Some guild_id => is_blocked self guild_id
               | None => false
               end = false) by (by apply negb_true_iff).
  rewrite Hg. clear Hguild Hg.
  pose proof (get_bucket_spec (_spam_cooldown_mapping self) message (time_time message)) as Hb.
  destruct (get_bucket (_spam_cooldown_mapping self) message (time_time message))
    as [bucket mapping].
  cbn [fst snd] in Hb. destruct Hb as (-> & Hcap & Hper & Hcache).
  unfold after_check, violations, store_bucket, _blacklist_add.
  unfold rate_check, swept.
  destruct (update_rate_limit
              (bucket_for (_verify_cache_integrity (_spam_cooldown_mapping self)
                             (time_time message)) (user_id (author message)))
              (created_at message)) as [retry_after bucket'] eqn:Hupd.
  cbn -[_verify_cache_integrity]. rewrite Hcap, Hper, Hcache, insert_insert_eq.
  destruct (truthy retry_after && bool_decide (Some (user_id (author message)) ≠ owner_id self)).
  2:{ done. }
  destruct (5 <=? default 0 (_spammer_count self !! user_id (author message)) + 1);
    [|done].
  unfold with_blacklist_data, with_spammer_count. cbn -[_verify_cache_integrity].
  by rewrite delete_insert_eq.
Qed.

(** What an event does is what [process_commands] does with the message it
    hands over, and nothing when it hands none over or the message does not
    reach the rate limiter. *)
Lemma handle_handed_over (self : Graha) (ev : GatewayEvent) :
  handled self ev
  = match handed_over self ev with
    | Some m => process self m
    | None => (self, [])
    end.
Proof.
  destruct ev as [m|b a]; simpl.
  - unfold on_message. by destruct (bot (author m)).
  - unfold on_message_edit. by repeat case_match.
Qed.

Lemma handle_checked (self : Graha) (ev : GatewayEvent) (m : Message) :
  checked_by self ev = Some m →
  handled self ev = process self m ∧ reaches self m = true.
Proof.
  unfold checked. rewrite handle_handed_over.
  destruct (handed_over self ev) as [m'|]; [|done].
  destruct (reaches self m') eqn:Hr; [|done]. by intros [= ->].
Qed.

Lemma handle_unchecked (self : Graha) (ev : GatewayEvent) :
  checked_by self ev = None →
  handled self ev = (self, []).
Proof.
  unfold checked. rewrite handle_handed_over.
  destruct (handed_over self ev) as [m'|]; [|done].
  destruct (reaches self m') eqn:Hr; [done|]. intros _.
  by apply process_commands_skip.
Qed.


Lemma run_cons (self : Graha) (ev : GatewayEvent) (feed : list GatewayEvent) :
  ran self (ev :: feed)
  = (fst (ran (fst (handled self ev)) feed),
     snd (handled self ev) :: snd (ran (fst (handled self ev)) feed)).
Proof.
  simpl. destruct (handled self ev) as [self1 out]. simpl.
  by destruct (ran self1 feed).
Qed.

Lemma checks_of_cons (caller : Z) (self : Graha) (ev : GatewayEvent)
    (feed : list GatewayEvent) :
  checks caller self (ev :: feed)
  = match checked_by self ev with
    | Some m =>
        if bool_decide (user_id (author m) = caller)
        then m :: checks caller (fst (handled self ev)) feed
        else checks caller (fst (handled self ev)) feed
    | None => checks caller (fst (handled self ev)) feed
    end.
Proof. reflexivity. Qed.

Lemma each_check_cons (caller : Z) (P : nat → Graha → Message → Prop) (k : nat)
    (self : Graha) (ev : GatewayEvent) (feed : list GatewayEvent) :
  each caller P k self (ev :: feed)
  = match checked_by self ev with
    | Some m =>
        P k self m
        ∧ each caller P (if bool_decide (user_id (author m) = caller) then S k else k)
            (fst (handled self ev)) feed
    | None => each caller P k (fst (handled self ev)) feed
    end.
Proof. reflexivity. Qed.

(** *** What a step leaves alone *)

Lemma sweep_lookup (self : Graha) (message : Message) (caller : Z) :
  _cache (sweep self message) !! caller
  = match _cache (_spam_cooldown_mapping self) !! caller with
    | Some b => if idle b (time_time message) then None else Some b
    | None => None
    end.
Proof. apply verify_cache_integrity_lookup. Qed.

Lemma sweep_lookup_cases (self : Graha) (message : Message) (caller : Z) :
  _cache (sweep self message) !! caller = _cache (_spam_cooldown_mapping self) !! caller
  ∨ _cache (sweep self message) !! caller = None.
Proof.
  rewrite sweep_lookup.
  destruct (_cache (_spam_cooldown_mapping self) !! caller) as [b|]; [|by left].
  destruct (idle b (time_time message)); [by right|by left].
Qed.

Lemma sweep_lookup_kept (self : Graha) (message : Message) (caller : Z) :
  bucket_kept self caller (time_time message) →
  _cache (sweep self message) !! caller = _cache (_spam_cooldown_mapping self) !! caller.
Proof.
  intros Hkept. rewrite sweep_lookup.
  destruct (_cache (_spam_cooldown_mapping self) !! caller) as [b|] eqn:Hb; [|done].
  by rewrite (Hkept b Hb).
Qed.

Lemma same_for_refl (caller : Z) (g : Graha) : same_for caller g g.
Proof. split; [by left|done]. Qed.


(** A step leaves the settings alone, and only ever adds to the blocklist. *)
Lemma process_commands_settings (self : Graha) (message : Message) :
  same_settings self (fst (process self message)).
Proof.
  destruct (reaches self message) eqn:Hr.
  - rewrite process_commands_checked by done.
    repeat case_match; by repeat split.
  - rewrite process_commands_skip by done. by repeat split.
Qed.

Lemma process_commands_blocked_mono (self : Graha) (message : Message) (id : Z) :
  is_blocked self id = true →
  is_blocked (fst (process self message)) id = true.
Proof.
  intros Hb. destruct (reaches self message) eqn:Hr.
  - rewrite process_commands_checked by done.
    repeat case_match; simpl; try done.
    by apply contains_put_mono.
  - by rewrite process_commands_skip.
Qed.

(** A step on a message of one caller leaves every other caller as it was,
    but for the sweep of idle buckets. *)
Lemma process_commands_frame (self : Graha) (message : Message) (caller : Z) :
  user_id (author message) ≠ caller →
  _cache (_spam_cooldown_mapping (fst (process self message))) !! caller
  = (if reaches self message then _cache (sweep self message) !! caller
     else _cache (_spam_cooldown_mapping self) !! caller)
  ∧ _spammer_count (fst (process self message)) !! caller = _spammer_count self !! caller
  ∧ is_blocked (fst (process self message)) caller = is_blocked self caller.
Proof.
  intros Hne. destruct (reaches self message) eqn:Hr.
  - rewrite process_commands_checked by done.
    unfold is_blocked.
    repeat case_match; cbn -[swept Config.put];
      rewrite ?lookup_insert_ne, ?lookup_delete_ne, ?contains_put_ne by done; done.
  - by rewrite process_commands_skip.
Qed.

Lemma handle_settings (self : Graha) (ev : GatewayEvent) :
  same_settings self (fst (handled self ev)).
Proof.
  rewrite handle_handed_over. destruct (handed_over self ev) as [m|].
  - apply process_commands_settings.
  - by repeat split.
Qed.

Lemma handle_blocked_mono (self : Graha) (ev : GatewayEvent) (id : Z) :
  is_blocked self id = true →
  is_blocked (fst (handled self ev)) id = true.
Proof.
  intros Hb. rewrite handle_handed_over. destruct (handed_over self ev) as [m|]; [|done].
  by apply process_commands_blocked_mono.
Qed.

Lemma run_blocked_mono (feed : list GatewayEvent) (self : Graha) (id : Z) :
  is_blocked self id = true →
  is_blocked (fst (ran self feed)) id = true.
Proof.
  revert self. induction feed as [|ev feed IH]; intros self Hb; [done|].
  rewrite run_cons. cbn [fst]. apply IH. by apply handle_blocked_mono.
Qed.

(** An event that brings no message of the caller to the rate limiter
    leaves the caller as it was, but for the sweep of idle buckets; and the
    caller's bucket stays when the lookup does not find it idle. *)
Lemma handle_frame (self : Graha) (ev : GatewayEvent) (caller : Z) :
  (∀ m, checked_by self ev = Some m → user_id (author m) ≠ caller) →
  same_for caller self (fst (handled self ev))
  ∧ ((∀ m, checked_by self ev = Some m → bucket_kept self caller (time_time m)) →
     _cache (_spam_cooldown_mapping (fst (handled self ev))) !! caller
     = _cache (_spam_cooldown_mapping self) !! caller).
Proof.
  intros Hev. destruct (checked_by self ev) as [m|] eqn:Hc.
  - destruct (handle_checked self ev m Hc) as [-> Hr].
    destruct (process_commands_frame self m caller (Hev m eq_refl)) as (Hcache & Hv & Hb).
    rewrite Hr in Hcache. split.
    + split; [|done]. rewrite Hcache. apply sweep_lookup_cases.
    + intros Hkept. rewrite Hcache. apply sweep_lookup_kept. by apply Hkept.
  - rewrite (handle_unchecked self ev Hc). split; [apply same_for_refl|done].
Qed.


Lemma blocked_not_reaches (self : Graha) (message : Message) (id : Z) :
  is_blocked self id = true →
  user_id (author message) = id ∨ guild message = Some id →
  reaches self message = false.
Proof.
  intros Hb Hid. unfold reaches_rate_check.
  destruct (resolve_command self message); [|done].
  destruct Hid as [-> | ->]; rewrite Hb; simpl; [done|].
  apply andb_false_r.
Qed.

(** ** C1: blocked callers are dropped *)

(** C1.  Once an id is blocked, then after any run of the gateway feed, an
    event whose message has that id as author or as guild is handled without
    any effect and leaves the bot exactly as it was: nothing in the feed
    unblocks the id. *)
Theorem blocked_caller_dropped (self : Graha) (feed : list GatewayEvent)
    (ev : GatewayEvent) (id : Z) :
  is_blocked self id = true →
  user_id (author (event_message ev)) = id ∨ guild (event_message ev) = Some id →
  handled (fst (ran self feed)) ev = (fst (ran self feed), []).
Proof.
  intros Hb Hid. pose proof (run_blocked_mono feed self id Hb) as Hnow.
  set (g := fst (ran self feed)) in *.
  destruct ev as [m|b a]; simpl in *.
  - unfold on_message. destruct (bot (author m)); [done|].
    apply process_commands_skip. by apply (blocked_not_reaches g m id).
  - unfold on_message_edit. repeat case_match; try done.
    apply process_commands_skip. by apply (blocked_not_reaches g a id).
Qed.

(** ** C10: messages of bot accounts *)

(** C10.  [on_message] on a message whose author is a bot account returns at
    once: no effect, and the bot (blocklist, buckets, violation counts) is
    unchanged. *)
Theorem bot_author_ignored (self : Graha) (message : Message) :
  bot (author message) = true →
  message_created self message = (self, []).
Proof. intros Hbot. unfold on_message. by rewrite Hbot. Qed.

(** ** C8: edited messages *)

(** C8, as the code has it.  An edit is handed to [process_commands] exactly when its
    author is the owner and it is not an edit in which embeds appeared (no
    embeds before, embeds after); every other edit does nothing. *)
Theorem edit_reprocessed_for_owner (self : Graha) (before after : Message) :
  (Some (user_id (author after)) = owner_id self →
   embeds before ≠ [] ∨ embeds after = [] →
   message_edited self before after = process self after)
  ∧ (Some (user_id (author after)) ≠ owner_id self →
     message_edited self before after = (self, []))
  ∧ (embeds before = [] → embeds after ≠ [] →
     message_edited self before after = (self, [])).
Proof.
  unfold on_message_edit. repeat split.
  - intros Ho Hemb. rewrite bool_decide_eq_true_2 by done.
    destruct Hemb as [Hb | Ha].
    + by rewrite (bool_decide_eq_true_2 _ Hb).
    + rewrite (bool_decide_eq_false_2 (embeds after ≠ [])); [by rewrite andb_false_r|].
      intros Hne. by apply Hne.
  - intros Ho. by rewrite bool_decide_eq_false_2.
  - intros Hb Ha. case_bool_decide; [|done].
    rewrite (bool_decide_eq_false_2 (embeds before ≠ [])) by (intros Hne; by apply Hne).
    by rewrite (bool_decide_eq_true_2 _ Ha).
Qed.

(** ** C7: the owner *)

Lemma owner_step (self : Graha) (message : Message) :
  owner_id self = Some (user_id (author message)) →
  (reaches self message = true →
   process self message
   = (after self message (_blacklist_data self)
        (delete (user_id (author message)) (_spammer_count self)),
      [Invoke (context_of self message)]))
  ∧ (reaches self message = false → process self message = (self, [])).
Proof.
  intros Ho. split; intros Hr.
  - rewrite process_commands_checked by done.
    rewrite (bool_decide_eq_false_2 (Some _ ≠ owner_id self)).
    + by rewrite andb_false_r.
    + intros Hne. by apply Hne.
  - by apply process_commands_skip.
Qed.

Lemma handle_owner (self : Graha) (ev : GatewayEvent) (owner : Z) :
  owner_id self = Some owner →
  is_blocked (fst (handled self ev)) owner = is_blocked self owner
  ∧ (_spammer_count self !! owner = None →
     _spammer_count (fst (handled self ev)) !! owner = None).
Proof.
  intros Ho.
  assert (Hp : ∀ m, is_blocked (fst (process self m)) owner = is_blocked self owner
                    ∧ (_spammer_count self !! owner = None →
                       _spammer_count (fst (process self m)) !! owner = None)).
  { intros m. destruct (decide (user_id (author m) = owner)) as [<-|Hne].
    - destruct (owner_step self m Ho) as [Hyes Hno].
      destruct (reaches self m).
      + rewrite Hyes by done. simpl. split; [done|]. intros _. apply lookup_delete_eq.
      + by rewrite Hno.
    - destruct (process_commands_frame self m owner Hne) as (_ & Hc & Hb).
      split; [done|]. by rewrite Hc. }
  rewrite handle_handed_over. by destruct (handed_over self ev).
Qed.

(** C7.  A message of the owner that reaches the rate limiter has the check
    performed (the owner's bucket is updated) and is then invoked whatever
    the limiter answered, with the owner's violation entry removed and the
    blocklist untouched; and over any run of the feed the owner's blocked
    status does not change and an owner without violations stays without. *)
Theorem owner_never_throttled (self : Graha) (owner : Z) :
  owner_id self = Some owner →
  (∀ message, user_id (author message) = owner →
     (reaches self message = true →
      process self message
      = (after self message (_blacklist_data self)
           (delete owner (_spammer_count self)),
         [Invoke (context_of self message)]))
     ∧ (reaches self message = false → process self message = (self, [])))
  ∧ (∀ feed,
       is_blocked (fst (ran self feed)) owner = is_blocked self owner
       ∧ (_spammer_count self !! owner = None →
          _spammer_count (fst (ran self feed)) !! owner = None)).
Proof.
  intros Ho. split.
  - intros message <-. by apply owner_step.
  - intros feed. revert self Ho.
    induction feed as [|ev feed IH]; intros self Ho; [done|].
    rewrite run_cons. cbn [fst].
    destruct (handle_owner self ev owner Ho) as [Hb Hc].
    destruct (handle_settings self ev) as (Ho' & _).
    destruct (IH (fst (handled self ev))) as [IHb IHc]; [by rewrite Ho'|].
    split; [by rewrite IHb|]. intros Hnone. by apply IHc, Hc.
Qed.

(** ** C3: escalation *)










(** ** C2: the window of the rate limiter *)

Lemma bucket_for_cached (mapping : CooldownMapping) (caller : Z) (b : Cooldown) :
  _cache mapping !! caller = Some b →
  bucket_for mapping caller = b.
Proof. unfold bucket_for. by intros ->. Qed.

(** The bucket a message's author is given: the author's own, found not
    idle, or a new one. *)
Lemma bucket_for_sweep (g : Graha) (m : Message) (caller : Z) :
  (_cache (sweep g m) !! caller = None
   ∧ bucket_for (sweep g m) caller
     = mkCooldown None 0 (mapping_capacity (_spam_cooldown_mapping g))
         (mapping_period (_spam_cooldown_mapping g)) 0)
  ∨ (_cache (_spam_cooldown_mapping g) !! caller = Some (bucket_for (sweep g m) caller)
     ∧ _cache (sweep g m) !! caller = Some (bucket_for (sweep g m) caller)
     ∧ idle (bucket_for (sweep g m) caller) (time_time m) = false).
Proof.
  unfold bucket_for. rewrite sweep_lookup.
  destruct (_cache (_spam_cooldown_mapping g) !! caller) as [b|] eqn:Hb; [|by left].
  destruct (idle b (time_time m)) eqn:Hidle; [by left|by right].
Qed.

Lemma bucket_for_configured (g : Graha) (m : Message) (caller : Z) :
  configured g caller →
  capacity (bucket_for (sweep g m) caller) = 10
  ∧ period (bucket_for (sweep g m) caller) = 12%Q.
Proof.
  intros (Hcap & Hper & Hb).
  destruct (bucket_for_sweep g m caller) as [[_ ->] | [Hc _]]; [done|by apply Hb].
Qed.

Lemma after_check_bucket (g : Graha) (m : Message) (bl : gmap string bool) (cs : gmap Z Z) :
  _cache (_spam_cooldown_mapping (after g m bl cs)) !! user_id (author m)
  = Some (snd (check g m)).
Proof. unfold after_check. cbn [_spam_cooldown_mapping _cache]. apply lookup_insert_eq. Qed.

(** Whatever [process_commands] does with a message that reaches the rate
    limiter, the author's bucket afterwards is the checked one. *)
Lemma process_commands_bucket (g : Graha) (m : Message) :
  reaches g m = true →
  _cache (_spam_cooldown_mapping (fst (process g m))) !! user_id (author m)
  = Some (snd (check g m)).
Proof.
  intros Hr. rewrite process_commands_checked by done.
  repeat case_match; apply after_check_bucket.
Qed.

Lemma process_commands_throttled (g : Graha) (m : Message) (r : Q) :
  reaches g m = true →
  Some (user_id (author m)) ≠ owner_id g →
  fst (check g m) = Some r →
  (0 < r)%Q →
  filter (λ e, is_invoke e = true) (snd (process g m)) = [].
Proof.
  intros Hr Hown Hra Hpos. rewrite process_commands_checked by done.
  rewrite Hra, (truthy_positive r Hpos), (bool_decide_eq_true_2 _ Hown).
  cbn [andb]. by case_match.
Qed.

(** Every event leaves the caller's buckets at 10 events per 12 seconds. *)
Lemma handle_configured (g : Graha) (ev : GatewayEvent) (caller : Z) :
  configured g caller →
  configured (fst (handled g ev)) caller.
Proof.
  intros Hconf. pose proof Hconf as (Hcap & Hper & Hb).
  destruct (handle_settings g ev) as (_ & _ & _ & Hcap' & Hper').
  split; [by rewrite Hcap'|]. split; [by rewrite Hper'|].
  destruct (checked_by g ev) as [m|] eqn:Hc.
  2:{ by rewrite (handle_unchecked g ev Hc). }
  destruct (decide (user_id (author m) = caller)) as [<-|Hne].
  - destruct (handle_checked g ev m Hc) as [-> Hr].
    rewrite process_commands_bucket by done. intros b [= <-].
    unfold rate_check.
    destruct (update_rate_limit_settings (bucket_for (sweep g m) (user_id (author m)))
                (created_at m)) as [-> ->].
    by apply bucket_for_configured.
  - destruct (handle_frame g ev caller) as [([-> | ->] & _) _]; try done.
    intros m' Hm'. rewrite Hc in Hm'. by injection Hm' as <-.
Qed.

(** From [Graha.__init__] on, whatever the feed, every caller's buckets are
    of capacity 10 and period 12. *)
Lemma configured_from_init (bot_user app_owner : Z) (feed : list GatewayEvent) (caller : Z) :
  configured (fst (ran (setup_hook (init bot_user) app_owner) feed)) caller.
Proof.
  assert (Hgen : ∀ g, configured g caller → configured (fst (ran g feed)) caller).
  { induction feed as [|ev feed IH]; intros g Hg; [done|].
    rewrite run_cons. cbn [fst]. apply IH. by apply handle_configured. }
  apply Hgen. by repeat split.
Qed.

(** One message of the caller in the window opened at [t0]: the first ten
    are invoked, the later ones are answered with the time left in the
    window and never invoked. *)
Lemma window_step (g : Graha) (m : Message) (t0 : Q) (k : nat) :
  Some (user_id (author m)) ≠ owner_id g →
  configured g (user_id (author m)) →
  reaches g m = true →
  ((0 < k)%nat → bucket_in_window g (user_id (author m)) t0 k) →
  (k = 0%nat → opens g m ∧ created_at m = t0) →
  (created_at m < t0 + 12)%Q →
  ((0 < k)%nat → bucket_kept g (user_id (author m)) (time_time m)) →
  (((k < 10)%nat → snd (process g m) = [Invoke (context_of g m)])
   ∧ ((10 <= k)%nat →
      (∃ r, fst (check g m) = Some r ∧ (0 < r)%Q ∧ r = (t0 + 12 - created_at m)%Q)
      ∧ filter (λ e, is_invoke e = true) (snd (process g m)) = []))
  ∧ bucket_in_window (fst (process g m)) (user_id (author m)) t0 (S k).
Proof.
  intros Hown Hconf Hr Hinv Hfirst Hlt Hkept.
  destruct (bucket_for_configured g m _ Hconf) as [Hcap Hper].
  destruct k as [|k].
  - (* the message opens the window *)
    destruct Hfirst as [Hopen Ht0]; [done|].
    assert (Hcheck : check g m = (None, mkCooldown (Some t0) 1 10 12%Q t0)).
    { unfold rate_check. rewrite update_rate_limit_outside; [|done|lia].
      by rewrite Hcap, Hper, Ht0. }
    split.
    + split; [|lia]. intros _.
      rewrite process_commands_checked by done. by rewrite Hcheck.
    + exists (mkCooldown (Some t0) 1 10 12%Q t0).
      rewrite process_commands_bucket by done. rewrite Hcheck. simpl.
      repeat split; try done; lia.
  - (* the window is open *)
    destruct Hinv as (b & Hb & _ & _ & Hw & Hexact & Hfull); [lia|].
    assert (Hbucket : bucket_for (sweep g m) (user_id (author m)) = b).
    { apply bucket_for_cached. rewrite sweep_lookup_kept; [done|]. apply Hkept. lia. }
    rewrite Hbucket in Hcap, Hper.
    assert (Hin : outside_window b (created_at m) = false).
    { apply not_true_iff_false. rewrite (outside_window_iff b t0) by done.
      rewrite Hper. lra. }
    assert (Hcheck : check g m
                     = ((if 10 <? count b + 1
                         then Some (t0 + 12 - created_at m)%Q else None),
                        mkCooldown (Some t0) (count b + 1) 10 12%Q (created_at m))).
    { unfold rate_check. rewrite Hbucket.
      rewrite (update_rate_limit_inside b t0) by done. by rewrite Hcap, Hper. }
    assert (Hnext : bucket_in_window (fst (process g m)) (user_id (author m)) t0 (S (S k))).
    { exists (mkCooldown (Some t0) (count b + 1) 10 12%Q (created_at m)).
      rewrite process_commands_bucket by done. rewrite Hcheck. simpl.
      repeat split; try done.
      - intros Hk. rewrite Hexact by lia. lia.
      - intros Hk. destruct (decide (S k <= 10)%nat) as [Hle|Hgt].
        + rewrite Hexact by lia. lia.
        + assert (10 <= count b) by (apply Hfull; lia). lia. }
    split; [|done].
    destruct (decide (S k < 10)%nat) as [Hsmall|Hlarge].
    + split; [|lia]. intros _.
      rewrite process_commands_checked by done. rewrite Hcheck.
      rewrite Hexact by lia.
      destruct (10 <? Z.of_nat (S k) + 1) eqn:Hover; [|done].
      apply Z.ltb_lt in Hover. lia.
    + assert (Hcount : 10 <= count b) by (apply Hfull; lia).
      assert (Hover : (10 <? count b + 1) = true) by (apply Z.ltb_lt; lia).
      rewrite Hover in Hcheck.
      assert (Hpos : (0 < t0 + 12 - created_at m)%Q) by lra.
      split; [lia|]. intros _. split.
      { eexists. rewrite Hcheck. by repeat split. }
      apply (process_commands_throttled g m (t0 + 12 - created_at m)%Q); try done.
      by rewrite Hcheck.
Qed.

Lemma window_run (caller : Z) (t0 : Q) (feed : list GatewayEvent) :
  ∀ (self : Graha) (k : nat),
    Some caller ≠ owner_id self →
    configured self caller →
    ((0 < k)%nat → bucket_in_window self caller t0 k) →
    each caller (in_one_window time_time caller t0) k self feed →
    each caller
      (λ k g m,
         user_id (author m) = caller →
         ((k < 10)%nat → snd (process g m) = [Invoke (context_of g m)])
         ∧ ((10 <= k)%nat →
            (∃ r, fst (check g m) = Some r ∧ (0 < r)%Q
                  ∧ r = (t0 + 12 - created_at m)%Q)
            ∧ filter (λ e, is_invoke e = true) (snd (process g m)) = []))
      k self feed.
Proof.
  induction feed as [|ev feed IH]; intros self k Hown Hconf Hinv Hall; [done|].
  rewrite each_check_cons in Hall |- *.
  destruct (handle_settings self ev) as (Ho' & _).
  pose proof (handle_configured self ev caller Hconf) as Hconf'.
  destruct (checked_by self ev) as [m|] eqn:Hc.
  2:{ rewrite (handle_unchecked self ev Hc) in *. by apply IH. }
  destruct (handle_checked self ev m Hc) as [Hh Hr].
  destruct Hall as [[Hown_m Hkept] Hrest].
  case_bool_decide as Hm.
  - subst caller. destruct (Hown_m eq_refl) as [Hfirst Hlt].
    destruct (window_step self m t0 k) as [Hconcl Hnext]; try done.
    split; [done|].
    apply IH; try done.
    + by rewrite Ho'.
    + intros _. by rewrite Hh.
  - split; [done|].
    apply IH; try done.
    + by rewrite Ho'.
    + intros Hk. destruct (Hinv Hk) as (b & Hb & Hrest_b). exists b.
      split; [|done].
      destruct (handle_frame self ev caller) as [_ Hsame].
      { intros m' Hm'. rewrite Hc in Hm'. by injection Hm' as <-. }
      rewrite Hsame; [done|].
      intros m' Hm'. rewrite Hc in Hm'. injection Hm' as <-. by apply Hkept.
Qed.

Lemma bucket_tracks_snoc (g : Graha) (caller : Z) (past : list Q) (t : Q) :
  bucket_tracks g caller past → bucket_tracks g caller (past ++ [t]).
Proof.
  intros (b & w & Hb & Hw & Hin & Hcount). exists b, w.
  repeat split; try done.
  - apply elem_of_app. by left.
  - destruct (length_filter_snoc w t past) as [Hle _]. lia.
Qed.

(** The check of one message of a caller whose events are sparse (at most
    ten in any window that opens at one of them): the answer is never a
    throttle, and the bucket keeps track. *)
Lemma sparse_check (g : Graha) (m : Message) (past fut : list Q) :
  let caller := user_id (author m) in
  let t := created_at m in
  configured g caller →
  nondecreasing (past ++ t :: fut) →
  Forall (λ s, (count_window 12 s (past ++ t :: fut) <= 10)%nat) (past ++ t :: fut) →
  (past = [] → opens g m) →
  (past ≠ [] →
   _cache (_spam_cooldown_mapping g) !! caller = None ∨ bucket_tracks g caller past) →
  truthy (fst (check g m)) = false
  ∧ ∃ w c, snd (check g m) = mkCooldown (Some w) c 10 12%Q t
           ∧ w ∈ past ++ [t]
           ∧ c <= Z.of_nat (length (filter (λ x, Qle_bool w x = true) (past ++ [t]))).
Proof.
  intros caller t Hconf Hsorted Hdense Hfirst Hinv.
  destruct (bucket_for_configured g m caller Hconf) as [Hcap Hper].
  unfold rate_check. fold caller. fold t.
  set (b := bucket_for (sweep g m) caller) in *.
  destruct (outside_window b t) eqn:Hout.
  - rewrite update_rate_limit_outside; [|done|lia]. rewrite Hcap, Hper.
    split; [done|]. exists t, 1. split; [done|]. split.
    + apply elem_of_app. right. by left.
    + destruct (length_filter_snoc t t past) as [_ Heq]. rewrite Heq by lra. lia.
  - assert (Hcached : _cache (_spam_cooldown_mapping g) !! caller = Some b).
    { destruct (bucket_for_sweep g m caller) as [[_ Hfresh] | [Hc _]]; [|done].
      fold b in Hfresh. rewrite Hfresh in Hout. done. }
    destruct (decide (past = [])) as [Hnil|Hsome].
    { specialize (Hfirst Hnil). unfold opens_window in Hfirst. fold caller in Hfirst.
      fold b in Hfirst. fold t in Hfirst. congruence. }
    destruct (Hinv Hsome) as [Hnone | (b' & w & Hb' & Hw & Hin & Hcount)]; [congruence|].
    assert (b' = b) as -> by congruence.
    rewrite (update_rate_limit_inside b w) by done. rewrite Hcap, Hper. cbn [fst snd].
    destruct (nondecreasing_app past (t :: fut) Hsorted) as [_ Hle].
    assert (Hwt : (w <= t)%Q) by (apply Hle; [done|by left]).
    assert (Hclose : (t <= w + 12)%Q).
    { destruct (Qlt_le_dec (w + 12) t) as [Hlt|Hge]; [|done].
      assert (outside_window b t = true); [|congruence].
      apply (outside_window_iff b w t Hw). by rewrite Hper. }
    split.
    + destruct (10 <? count b + 1) eqn:Hover; [|done].
      apply Z.ltb_lt in Hover. apply truthy_zero.
      destruct (Qlt_le_dec t (w + 12)) as [Hlt|Hge]; [|lra].
      exfalso.
      assert (Hs : w ∈ past ++ t :: fut) by (apply elem_of_app; by left).
      rewrite Forall_forall in Hdense. specialize (Hdense w Hs).
      rewrite count_window_app, count_window_cons_in in Hdense by done.
      rewrite (count_window_before_close 12 w past) in Hdense.
      * lia.
      * intros x Hx. assert ((x <= t)%Q) by (apply Hle; [done|by left]). lra.
    + exists w, (count b + 1). split; [done|]. split.
      * apply elem_of_app. by left.
      * destruct (length_filter_snoc w t past) as [_ Heq]. rewrite Heq by done. lia.
Qed.

Lemma sparse_run (caller : Z) (feed : list GatewayEvent) :
  ∀ (self : Graha) (past : list Q),
    Some caller ≠ owner_id self →
    configured self caller →
    nondecreasing (past ++ map created_at (checks caller self feed)) →
    Forall (λ s, (count_window 12 s (past ++ map created_at (checks caller self feed))
                  <= 10)%nat)
      (past ++ map created_at (checks caller self feed)) →
    (past ≠ [] →
     _cache (_spam_cooldown_mapping self) !! caller = None ∨ bucket_tracks self caller past) →
    each caller (λ k g m, user_id (author m) = caller → k = 0%nat → opens g m)
      (length past) self feed →
    each caller
      (λ _ g m, user_id (author m) = caller →
                snd (process g m) = [Invoke (context_of g m)])
      (length past) self feed.
Proof.
  induction feed as [|ev feed IH]; intros self past Hown Hconf Hsorted Hdense Hinv Hfirst;
    [done|].
  rewrite checks_of_cons in Hsorted, Hdense.
  rewrite each_check_cons in Hfirst |- *.
  destruct (handle_settings self ev) as (Ho' & _).
  pose proof (handle_configured self ev caller Hconf) as Hconf'.
  destruct (checked_by self ev) as [m|] eqn:Hc.
  2:{ rewrite (handle_unchecked self ev Hc) in *. by apply IH. }
  destruct (handle_checked self ev m Hc) as [Hh Hr].
  destruct Hfirst as [Hnow Hfirst].
  case_bool_decide as Hm.
  - subst caller. cbn [map] in Hsorted, Hdense.
    destruct (sparse_check self m past _ Hconf Hsorted Hdense)
      as (Hclean & w & c & Hbucket & Hw & Hc').
    { intros Hnil. apply Hnow; [done|]. by rewrite Hnil. }
    { done. }
    split.
    + intros _. rewrite process_commands_checked by done. by rewrite Hclean.
    + replace (S (length past)) with (length (past ++ [created_at m]))
        by (rewrite length_app; simpl; lia).
      apply IH.
      * by rewrite Ho'.
      * done.
      * by rewrite <- app_assoc.
      * by rewrite <- app_assoc.
      * intros _. right. exists (mkCooldown (Some w) c 10 12%Q (created_at m)), w.
        rewrite Hh. rewrite process_commands_bucket by done. by rewrite Hbucket.
      * rewrite length_app. simpl. by rewrite Nat.add_1_r.
  - split; [done|].
    apply IH; try done.
    + by rewrite Ho'.
    + intros Hsome. destruct (Hinv Hsome) as [Hnone | (b & w & Hb & Hrest)].
      * left. destruct (handle_frame self ev caller) as [([Hsame | Hgone] & _) _];
          [|congruence|done].
        intros m' Hm'. rewrite Hc in Hm'. by injection Hm' as <-.
      * destruct (handle_frame self ev caller) as [([Hsame | Hgone] & _) _].
        { intros m' Hm'. rewrite Hc in Hm'. by injection Hm' as <-. }
        -- right. exists b, w. by rewrite Hsame.
        -- by left.
Qed.

(** C2, for callers other than the owner.  For such a caller whose buckets
    are the bot's (10 per 12 seconds), counting the caller's messages that
    reach the rate limiter in the run of the feed:
    - if the check of the first of them opens a window, their times do not
      decrease, and no window of 12 seconds that opens at one of them holds
      more than 10 of them, then every one of them is invoked;
    - if the check of the first of them opens a window at [t0], every one of
      them comes before [t0 + 12], and from then on no lookup in the feed
      finds the caller's bucket idle, then the first ten are invoked, and
      for the eleventh and every later one the rate limiter answers
      [retry_after = t0 + 12 - created_at > 0] and the message is not
      invoked. *)
Theorem rate_limit_window (self : Graha) (caller : Z) (feed : list GatewayEvent) :
  Some caller ≠ owner_id self →
  configured self caller →
  (each caller (λ k g m, user_id (author m) = caller → k = 0%nat → opens g m) 0 self feed →
   nondecreasing (check_times resolve_command new_ray_id time_time caller self feed) →
   Forall (λ s, (count_window 12 s
                   (check_times resolve_command new_ray_id time_time caller self feed)
                 <= 10)%nat)
     (check_times resolve_command new_ray_id time_time caller self feed) →
   each caller
     (λ _ g m, user_id (author m) = caller →
               snd (process g m) = [Invoke (context_of g m)])
     0 self feed)
  ∧ (∀ t0,
       each caller (in_one_window time_time caller t0) 0 self feed →
       each caller
         (λ k g m,
            user_id (author m) = caller →
            ((k < 10)%nat → snd (process g m) = [Invoke (context_of g m)])
            ∧ ((10 <= k)%nat →
               (∃ r, fst (check g m) = Some r ∧ (0 < r)%Q
                     ∧ r = (t0 + 12 - created_at m)%Q)
               ∧ filter (λ e, is_invoke e = true) (snd (process g m)) = []))
         0 self feed).
Proof.
  intros Hown Hconf. split.
  - intros Hfirst Hsorted Hdense.
    by apply (sparse_run caller feed self []).
  - intros t0 Hall. apply (window_run caller t0 feed self 0%nat); try done. lia.
Qed.

End DispatchProperties.

(** * Instances *)

(** User 2 is blocked; after ten messages of the owner, a message of user 2
    is dropped. *)
Lemma blocked_caller_dropped_witness :
  is_blocked (_blacklist_add sample_graha 2) 2 = true
  ∧ (user_id (author (event_message (MessageCreate (sample_message sample_member 3)))) = 2
     ∨ guild (event_message (MessageCreate (sample_message sample_member 3))) = Some 2)
  ∧ handle sample_resolve sample_ray sample_clock
      (fst (run sample_resolve sample_ray sample_clock (_blacklist_add sample_graha 2)
              (ten_messages sample_owner)))
      (MessageCreate (sample_message sample_member 3))
    = (fst (run sample_resolve sample_ray sample_clock (_blacklist_add sample_graha 2)
              (ten_messages sample_owner)), []).
Proof.
  split; [vm_compute; reflexivity|]. split; [left; reflexivity|].
  apply (blocked_caller_dropped sample_resolve sample_ray sample_clock _ _ _ 2).
  - vm_compute; reflexivity.
  - left; reflexivity.
Defined.

(** A message of a bot account. *)
Lemma bot_author_ignored_witness :
  bot (author (sample_message sample_bot_account 0)) = true
  ∧ on_message sample_resolve sample_ray sample_clock sample_graha
      (sample_message sample_bot_account 0)
    = (sample_graha, []).
Proof.
  split; [reflexivity|].
  apply (bot_author_ignored sample_resolve sample_ray sample_clock). reflexivity.
Defined.

(** Guild 50 with the custom prefixes ["!"] and ["?"], and without any; and
    an author whose display name starts with a character outside ASCII. *)
Lemma callable_prefix_guild_witness :
  guild (sample_message sample_member 0) = Some 50
  ∧ first_character (display_name (author (sample_message sample_member 0))) = Returned "A"
  ∧ callable_prefix sample_casefold sample_prefixed (sample_message sample_member 0)
    = Returned ["<@90> "; "<@!90> "; "!"; "?"; "a "]%string
  ∧ callable_prefix sample_casefold sample_graha (sample_message sample_member 0)
    = Returned ["<@90> "; "<@!90> "; "gt "; "a "]%string
  ∧ first_character (display_name (author (sample_message sample_accented 0)))
    = Returned "É"
  ∧ callable_prefix sample_casefold sample_graha (sample_message sample_accented 0)
    = Returned ["<@90> "; "<@!90> "; "gt "; "é "]%string.
Proof.
  split; [reflexivity|]. split; [reflexivity|]. split; [|split; [|split; [reflexivity|]]].
  - destruct (callable_prefix_guild sample_casefold sample_prefixed
                (sample_message sample_member 0) 50 "A" eq_refl eq_refl)
      as (prefixes & -> & -> & _).
    vm_compute. reflexivity.
  - destruct (callable_prefix_guild sample_casefold sample_graha
                (sample_message sample_member 0) 50 "A" eq_refl eq_refl)
      as (prefixes & -> & -> & _).
    vm_compute. reflexivity.
  - destruct (callable_prefix_guild sample_casefold sample_graha
                (sample_message sample_accented 0) 50 "É" eq_refl eq_refl)
      as (prefixes & -> & -> & _).
    vm_compute. reflexivity.
Defined.

(** Eleven prefixes are refused and the two stored ones stay; the empty list
    brings the default back. *)
Lemma set_guild_prefixes_limit_witness :
  (10 < length eleven_prefixes)%nat
  ∧ (∃ msg, _set_guild_prefixes sample_prefixed 50 (Some eleven_prefixes)
            = (sample_prefixed, Raised (TooManyArguments msg)))
  ∧ snd (_set_guild_prefixes sample_prefixed 50 (Some [])) = Returned tt
  ∧ callable_prefix sample_casefold (fst (_set_guild_prefixes sample_prefixed 50 (Some [])))
      (sample_message sample_member 0)
    = Returned (when_mentioned sample_prefixed ++ ["gt "; "a "]%string).
Proof.
  destruct (set_guild_prefixes_limit sample_casefold sample_prefixed 50) as [Hmany Hclear].
  split; [simpl; lia|]. split; [apply Hmany; simpl; lia|].
  destruct (Hclear (Some []) (or_intror eq_refl)) as [Hret Hprefix].
  split; [exact Hret|].
  apply (Hprefix (sample_message sample_member 0) "A"%string); reflexivity.
Defined.

(** An edit by the owner, an edit by a member, and an edit in which an embed
    appeared. *)
Lemma edit_reprocessed_for_owner_witness :
  (Some (user_id (author (sample_message sample_owner 1))) = owner_id sample_graha
   ∧ (embeds (sample_message sample_owner 0) ≠ []
      ∨ embeds (sample_message sample_owner 1) = [])
   ∧ on_message_edit sample_resolve sample_ray sample_clock sample_graha
       (sample_message sample_owner 0) (sample_message sample_owner 1)
     = process_commands sample_resolve sample_ray sample_clock sample_graha
         (sample_message sample_owner 1))
  ∧ (Some (user_id (author (sample_message sample_member 1))) ≠ owner_id sample_graha
     ∧ on_message_edit sample_resolve sample_ray sample_clock sample_graha
         (sample_message sample_member 0) (sample_message sample_member 1)
       = (sample_graha, []))
  ∧ (embeds (sample_message sample_owner 0) = []
     ∧ embeds (with_embeds (sample_message sample_owner 0) ["preview"%string]) ≠ []
     ∧ on_message_edit sample_resolve sample_ray sample_clock sample_graha
         (sample_message sample_owner 0)
         (with_embeds (sample_message sample_owner 0) ["preview"%string])
       = (sample_graha, [])).
Proof.
  destruct (edit_reprocessed_for_owner sample_resolve sample_ray sample_clock sample_graha
              (sample_message sample_owner 0) (sample_message sample_owner 1))
    as (Howner & _ & _).
  destruct (edit_reprocessed_for_owner sample_resolve sample_ray sample_clock sample_graha
              (sample_message sample_member 0) (sample_message sample_member 1))
    as (_ & Hother & _).
  destruct (edit_reprocessed_for_owner sample_resolve sample_ray sample_clock sample_graha
              (sample_message sample_owner 0)
              (with_embeds (sample_message sample_owner 0) ["preview"%string]))
    as (_ & _ & Hpreview).
  split; [|split].
  - split; [reflexivity|]. split; [right; reflexivity|].
    apply Howner; [reflexivity|right; reflexivity].
  - assert (Hne : Some (user_id (author (sample_message sample_member 1)))
                  ≠ owner_id sample_graha) by (intros H; discriminate H).
    split; [exact Hne|]. apply Hother, Hne.
  - assert (Hne : embeds (with_embeds (sample_message sample_owner 0) ["preview"%string])
                  ≠ []) by (intros H; discriminate H).
    split; [reflexivity|]. split; [exact Hne|]. apply Hpreview; [reflexivity|exact Hne].
Defined.

(** The owner's eleventh message in a window: the limiter answers
    [retry_after = 2] and the message is invoked. *)
Lemma owner_never_throttled_witness :
  owner_id (sample_full sample_owner) = Some 1
  ∧ user_id (author (sample_message sample_owner 10)) = 1
  ∧ reaches_rate_check sample_resolve (sample_full sample_owner)
      (sample_message sample_owner 10) = true
  ∧ fst (rate_check sample_clock (sample_full sample_owner) (sample_message sample_owner 10))
    = Some 2%Q
  ∧ process_commands sample_resolve sample_ray sample_clock (sample_full sample_owner)
      (sample_message sample_owner 10)
    = (after_check sample_clock (sample_full sample_owner) (sample_message sample_owner 10)
         (_blacklist_data (sample_full sample_owner))
         (delete 1 (_spammer_count (sample_full sample_owner))),
       [Invoke (get_context sample_resolve sample_ray (sample_full sample_owner)
                  (sample_message sample_owner 10))])
  ∧ is_blocked (fst (run sample_resolve sample_ray sample_clock (sample_full sample_owner)
                       (five_more sample_owner))) 1
    = is_blocked (sample_full sample_owner) 1.
Proof.
  assert (Ho : owner_id (sample_full sample_owner) = Some 1) by (vm_compute; reflexivity).
  assert (Hr : reaches_rate_check sample_resolve (sample_full sample_owner)
                 (sample_message sample_owner 10) = true) by (vm_compute; reflexivity).
  destruct (owner_never_throttled sample_resolve sample_ray sample_clock
              (sample_full sample_owner) 1 Ho)
    as [Hstep Hrun].
  split; [exact Ho|]. split; [reflexivity|]. split; [exact Hr|].
  split; [vm_compute; reflexivity|]. split.
  - destruct (Hstep (sample_message sample_owner 10) eq_refl) as [Hyes _].
    apply Hyes, Hr.
  - apply (Hrun (five_more sample_owner)).
Defined.


(** A member whose messages come two seconds apart, and a member who sends
    twelve messages within one second. *)
Lemma rate_limit_window_witness :
  Some 2 ≠ owner_id sample_graha
  ∧ configured sample_graha 2
  ∧ (each_check sample_resolve sample_ray sample_clock 2
       (λ k g m, user_id (author m) = 2 → k = 0%nat → opens_window sample_clock g m)
       0 sample_graha sparse_feed
     ∧ nondecreasing (check_times sample_resolve sample_ray sample_clock 2 sample_graha
                        sparse_feed)
     ∧ Forall (λ s, (count_window 12 s
                       (check_times sample_resolve sample_ray sample_clock 2 sample_graha
                          sparse_feed) <= 10)%nat)
         (check_times sample_resolve sample_ray sample_clock 2 sample_graha sparse_feed)
     ∧ each_check sample_resolve sample_ray sample_clock 2
         (λ _ g m, user_id (author m) = 2 →
                   snd (process_commands sample_resolve sample_ray sample_clock g m)
                   = [Invoke (get_context sample_resolve sample_ray g m)])
         0 sample_graha sparse_feed)
  ∧ (each_check sample_resolve sample_ray sample_clock 2 (in_one_window sample_clock 2 3)
       0 sample_graha burst_feed
     ∧ each_check sample_resolve sample_ray sample_clock 2
         (λ k g m,
            user_id (author m) = 2 →
            ((k < 10)%nat →
             snd (process_commands sample_resolve sample_ray sample_clock g m)
             = [Invoke (get_context sample_resolve sample_ray g m)])
            ∧ ((10 <= k)%nat →
               (∃ r, fst (rate_check sample_clock g m) = Some r ∧ (0 < r)%Q
                     ∧ r = (3 + 12 - created_at m)%Q)
               ∧ filter (λ e, is_invoke e = true)
                   (snd (process_commands sample_resolve sample_ray sample_clock g m))
                 = []))
         0 sample_graha burst_feed).
Proof.
  assert (Hown : Some 2 ≠ owner_id sample_graha) by (intros H; discriminate H).
  assert (Hconf : configured sample_graha 2).
  { split; [reflexivity|]. split; [reflexivity|]. intros b Hb. discriminate Hb. }
  assert (Hfirst : each_check sample_resolve sample_ray sample_clock 2
                     (λ k g m, user_id (author m) = 2 → k = 0%nat →
                               opens_window sample_clock g m)
                     0 sample_graha sparse_feed).
  { vm_compute. repeat split; intros; try reflexivity; discriminate. }
  assert (Htimes : check_times sample_resolve sample_ray sample_clock 2 sample_graha
                     sparse_feed
                   = [0; 2; 4; 6; 8; 10; 12; 14; 16; 18; 20; 22]%Q)
    by (vm_compute; reflexivity).
  assert (Hsorted : nondecreasing (check_times sample_resolve sample_ray sample_clock 2
                                     sample_graha sparse_feed)).
  { rewrite Htimes. vm_compute. repeat split; repeat constructor; intros H; discriminate H. }
  assert (Hdense : Forall (λ s, (count_window 12 s
                                   (check_times sample_resolve sample_ray sample_clock 2
                                      sample_graha sparse_feed) <= 10)%nat)
                     (check_times sample_resolve sample_ray sample_clock 2 sample_graha
                        sparse_feed)).
  { rewrite Htimes. repeat (constructor; [vm_compute; lia|]). constructor. }
  assert (Hburst : each_check sample_resolve sample_ray sample_clock 2
                     (in_one_window sample_clock 2 3) 0 sample_graha burst_feed).
  { vm_compute.
    repeat split; intros;
      try match goal with
          | H : Some _ = Some _ |- _ => injection H as <-
          end;
      try reflexivity; try discriminate; try lia. }
  destruct (rate_limit_window sample_resolve sample_ray sample_clock sample_graha 2
              sparse_feed Hown Hconf) as [Hsparse _].
  destruct (rate_limit_window sample_resolve sample_ray sample_clock sample_graha 2
              burst_feed Hown Hconf) as [_ Hwindow].
  split; [exact Hown|]. split; [exact Hconf|]. split.
  - split; [exact Hfirst|]. split; [exact Hsorted|]. split; [exact Hdense|].
    exact (Hsparse Hfirst Hsorted Hdense).
  - split; [exact Hburst|]. exact (Hwindow 3%Q Hburst).
Defined.

(** ** Where the owner departs from the general rule, and edits *)

(** Eleven messages of the owner at times 0 to 10 lie in one window, the
    rate limiter answers the eleventh with [retry_after = 2], and the
    eleventh is invoked all the same. *)
Lemma owner_eleventh_invoked :
  each_check sample_resolve sample_ray sample_clock 1 (in_one_window sample_clock 1 0)
    0 sample_graha
    (ten_messages sample_owner ++ [MessageCreate (sample_message sample_owner 10)])
  ∧ length (checks_of sample_resolve sample_ray sample_clock 1 sample_graha
              (ten_messages sample_owner)) = 10%nat
  ∧ checked sample_resolve (sample_full sample_owner)
      (MessageCreate (sample_message sample_owner 10))
    = Some (sample_message sample_owner 10)
  ∧ fst (rate_check sample_clock (sample_full sample_owner) (sample_message sample_owner 10))
    = Some 2%Q
  ∧ snd (handle sample_resolve sample_ray sample_clock (sample_full sample_owner)
           (MessageCreate (sample_message sample_owner 10)))
    = [Invoke (get_context sample_resolve sample_ray (sample_full sample_owner)
                 (sample_message sample_owner 10))].
Proof.
  split; [|split; [|split; [|split]]].
  - vm_compute.
    repeat split; intros;
      try match goal with
          | H : Some _ = Some _ |- _ => injection H as <-
          end;
      try reflexivity; try discriminate; try lia.
  - vm_compute. reflexivity.
  - vm_compute. reflexivity.
  - vm_compute. reflexivity.
  - vm_compute. reflexivity.
Qed.


(** At the very end of a full window the rate limiter refuses with a
    [retry_after] of zero, which [process_commands] takes as clean: the
    member's message is invoked and no violation is counted, however often
    this happens. *)
Lemma zero_retry_is_clean :
  fst (rate_check sample_clock (sample_full sample_member) (sample_message sample_member 12))
  = Some (0 + 12 - 12)%Q
  ∧ Forall (λ out, filter (λ e, is_invoke e = true) out = out ∧ length out = 1%nat)
      (snd (run sample_resolve sample_ray sample_clock (sample_full sample_member)
              (sample_feed sample_member [12; 12; 12; 12; 12]%Q)))
  ∧ is_blocked (fst (run sample_resolve sample_ray sample_clock (sample_full sample_member)
                       (sample_feed sample_member [12; 12; 12; 12; 12]%Q))) 2 = false
  ∧ _spammer_count (fst (run sample_resolve sample_ray sample_clock
                           (sample_full sample_member)
                           (sample_feed sample_member [12; 12; 12; 12; 12]%Q))) !! 2 = None.
Proof.
  split; [vm_compute; reflexivity|]. split; [vm_compute; repeat constructor|].
  split; vm_compute; reflexivity.
Qed.

(** An edit by the owner of a message that carried an embed before and
    carries it after is processed as a command. *)
Lemma edit_with_embeds_reprocessed :
  Some (user_id (author (sample_message sample_owner 0))) = owner_id sample_graha
  ∧ embeds (with_embeds (sample_message sample_owner 0) ["preview"%string]) ≠ []
  ∧ snd (on_message_edit sample_resolve sample_ray sample_clock sample_graha
           (with_embeds (sample_message sample_owner 0) ["preview"%string])
           (with_embeds (sample_message sample_owner 0) ["preview"%string]))
    = [Invoke (get_context sample_resolve sample_ray sample_graha
                 (with_embeds (sample_message sample_owner 0) ["preview"%string]))].
Proof.
  split; [reflexivity|]. split; [intros H; discriminate H|].
  vm_compute. reflexivity.
Qed.

(** The error handler on a [ValueError] raised inside [ping]: the reaction
    and the local log are all it does. *)
Example invoke_error_at_sample :
  on_command_error sample_shorten sample_graha 0
    (mkContext (sample_message sample_member 0) (Some sample_command) false "5f3a")
    (CommandInvokeError (OtherException "ValueError"))
  = (sample_graha,
     [AddReaction (sample_message sample_member 0) "❌"; LogException "ping" "5f3a"],
     Returned tt).
Proof. reflexivity. Qed.

(** * Further properties of the bot *)

(** ** Prefix administration and resolution *)

Lemma get_or_default_lookup {V : Type} (db : gmap string V) (key : Config.Key) (d : V) :
  get_or_default db key d = default d (db !! Config.str key).
Proof. unfold get_or_default, Config.get. by destruct (db !! Config.str key). Qed.

Section ResolutionProperties.

Variable str_casefold : string → string.

Local Abbreviation resolve_prefixes := (callable_prefix str_casefold).

(** X1.  [callable_prefix] raises [IndexError] exactly when the author's
    display name is empty, in a guild as in a direct message; otherwise it
    returns the two mention forms followed by at least two more prefixes, the
    last of them the author-derived one: the case-folded first character of
    the display name and a space. *)
Theorem callable_prefix_outcome (self : Graha) (message : Message) :
  (display_name (author message) = EmptyString ↔
   resolve_prefixes self message = Raised IndexError)
  ∧ (display_name (author message) ≠ EmptyString →
     ∃ character rest middle,
       display_name (author message) = (character +:+ rest)%string
       ∧ character ≠ EmptyString
       ∧ first_character (display_name (author message)) = Returned character
       ∧ resolve_prefixes self message
         = Returned (when_mentioned self ++ middle
                     ++ [(str_casefold character +:+ " ")%string])
       ∧ middle ≠ []).
Proof.
  destruct (first_character_outcome (display_name (author message))) as [Hempty Hsome].
  assert (Hgood : display_name (author message) ≠ EmptyString →
     ∃ character rest middle,
       display_name (author message) = (character +:+ rest)%string
       ∧ character ≠ EmptyString
       ∧ first_character (display_name (author message)) = Returned character
       ∧ resolve_prefixes self message
         = Returned (when_mentioned self ++ middle
                     ++ [(str_casefold character +:+ " ")%string])
       ∧ middle ≠ []).
  { intros Hne. destruct (Hsome Hne) as (character & rest & Hfirst & Hname & Hchar).
    unfold callable_prefix. rewrite Hfirst.
    destruct (guild message) as [guild_id|].
    - eexists character, rest, _. unfold when_mentioned_or.
      split; [exact Hname|]. split; [exact Hchar|]. split; [reflexivity|].
      split; [reflexivity|]. by repeat case_match.
    - exists character, rest, ["gt "%string]. by repeat split. }
  split; [|exact Hgood]. split.
  - intros Hnil. unfold callable_prefix. by rewrite (Hempty Hnil).
  - intros Hraised.
    destruct (decide (display_name (author message) = EmptyString)) as [|Hne]; [done|].
    destruct (Hgood Hne) as (? & ? & ? & _ & _ & _ & Hret & _). congruence.
Qed.

(** X2.  In a direct message no stored prefix configuration counts: the
    result is the mention forms, the default prefix and the author-derived
    prefix, whatever [_prefix_data] holds. *)
Theorem callable_prefix_private (self : Graha) (message : Message)
    (stored : gmap string (list string)) (character : string) :
  guild message = None →
  first_character (display_name (author message)) = Returned character →
  resolve_prefixes (with_prefix_data self stored) message
  = Returned (when_mentioned self
              ++ ["gt "%string; (str_casefold character +:+ " ")%string]).
Proof.
  intros Hguild Hname. unfold callable_prefix. by rewrite Hname, Hguild.
Qed.

(** X3.  [_set_guild_prefixes] with one to ten prefixes returns normally, and
    afterwards both the raw read and prefix resolution for a message of that
    guild give back exactly these prefixes, in order. *)
Theorem set_guild_prefixes_round_trip (self : Graha) (guild_id : Z) (prefixes : list string) :
  prefixes ≠ [] →
  (length prefixes <= 10)%nat →
  let self' := fst (_set_guild_prefixes self guild_id (Some prefixes)) in
  snd (_set_guild_prefixes self guild_id (Some prefixes)) = Returned tt
  ∧ (∀ local_, _get_guild_prefixes self' guild_id local_ true = prefixes)
  ∧ (∀ message character,
       guild message = Some guild_id →
       first_character (display_name (author message)) = Returned character →
       resolve_prefixes self' message
       = Returned (when_mentioned self ++ prefixes
                   ++ [(str_casefold character +:+ " ")%string])).
Proof.
  intros Hne Hlen.
  assert (Hstep : _set_guild_prefixes self guild_id (Some prefixes)
                  = (with_prefix_data self
                       (Config.put (_prefix_data self) (Config.KInt guild_id) prefixes),
                     Returned tt)).
  { unfold _set_guild_prefixes. destruct prefixes as [|p l]; [done|].
    destruct (10 <? length (p :: l))%nat eqn:Hlt; [|done].
    apply Nat.ltb_lt in Hlt. lia. }
  rewrite Hstep. cbn [fst snd]. split; [done|]. split.
  - intros local_. unfold _get_guild_prefixes. rewrite get_or_default_lookup.
    simpl. unfold Config.put. simpl. by rewrite lookup_insert_eq.
  - intros message character Hguild Hname.
    unfold callable_prefix. rewrite Hname, Hguild. cbn [_prefix_data with_prefix_data].
    rewrite get_put_str. by destruct prefixes.
Qed.

(** X4.  Whatever [_set_guild_prefixes] is given for one guild, prefix
    resolution for a message of another guild, or for a direct message, is
    what it was. *)
Theorem set_guild_prefixes_other_guild (self : Graha) (guild_id : Z)
    (prefixes : option (list string)) (message : Message) :
  guild message ≠ Some guild_id →
  resolve_prefixes (fst (_set_guild_prefixes self guild_id prefixes)) message
  = resolve_prefixes self message.
Proof.
  intros Hother.
  assert (Hput : ∀ l, resolve_prefixes
                        (with_prefix_data self
                           (Config.put (_prefix_data self) (Config.KInt guild_id) l)) message
                      = resolve_prefixes self message).
  { intros l. unfold callable_prefix.
    destruct (first_character (display_name (author message))) as [character|]; [|done].
    destruct (guild message) as [other|]; [|done].
    unfold Config.get, Config.put. simpl.
    rewrite lookup_insert_ne; [done|].
    intros Heq. apply Hother. f_equal. symmetry. by apply (inj pretty). }
  unfold _set_guild_prefixes. destruct prefixes as [[|p l]|]; try apply Hput.
  destruct (10 <? length (p :: l))%nat; [done|apply Hput].
Qed.

End ResolutionProperties.

(** X5.  The raw read gives the default ["gt "] for a guild that has no
    entry, but the empty list for a guild whose prefixes were cleared, where
    prefix resolution still answers with the default. *)
Theorem raw_prefixes_after_clearing (self : Graha) (guild_id : Z)
    (local_ : Graha → Z → list string) :
  (_prefix_data self !! pretty guild_id = None →
   _get_guild_prefixes self guild_id local_ true = ["gt "%string])
  ∧ (∀ cleared, cleared = None ∨ cleared = Some [] →
       _get_guild_prefixes (fst (_set_guild_prefixes self guild_id cleared)) guild_id
         local_ true = []).
Proof.
  split.
  - intros Hnone. unfold _get_guild_prefixes. rewrite get_or_default_lookup.
    simpl. by rewrite Hnone.
  - intros cleared [-> | ->]; unfold _get_guild_prefixes, _set_guild_prefixes;
      cbn [fst]; rewrite get_or_default_lookup; simpl;
      unfold Config.put; simpl; by rewrite lookup_insert_eq.
Qed.

(** ** The blocklist *)

(** X6.  Blocking or unblocking one id leaves the blocked status of every
    other id as it was. *)
Theorem blacklist_other_ids (self : Graha) (object_id other : Z) :
  object_id ≠ other →
  is_blocked (_blacklist_add self object_id) other = is_blocked self other
  ∧ is_blocked (fst (_blacklist_remove self object_id)) other = is_blocked self other.
Proof.
  intros Hne. split; [by apply contains_put_ne|].
  unfold _blacklist_remove, Config.remove, is_blocked, Config.contains. cbn [Config.str].
  destruct (_blacklist_data self !! pretty object_id) as [v|] eqn:Hlk; [|done].
  cbn [fst _blacklist_data with_blacklist_data].
  rewrite lookup_delete_ne; [done|].
  intros Heq. apply Hne. by apply (inj pretty).
Qed.

(** X7.  Blocking an id that was not blocked and then unblocking it gives the
    bot back exactly as it was; blocking twice is blocking once, and
    unblocking twice is unblocking once. *)
Theorem blacklist_add_remove_restores (self : Graha) (object_id : Z) :
  (is_blocked self object_id = false →
   fst (_blacklist_remove (_blacklist_add self object_id) object_id) = self)
  ∧ _blacklist_add (_blacklist_add self object_id) object_id = _blacklist_add self object_id
  ∧ fst (_blacklist_remove (fst (_blacklist_remove self object_id)) object_id)
    = fst (_blacklist_remove self object_id).
Proof.
  split; [|split].
  - intros Hfree. apply bool_decide_eq_false in Hfree.
    assert (Hnone : _blacklist_data self !! pretty object_id = None).
    { destruct (_blacklist_data self !! pretty object_id) eqn:Hlk; [|done].
      exfalso. apply Hfree. simpl. rewrite Hlk. eauto. }
    unfold _blacklist_remove, _blacklist_add, Config.remove, Config.put. cbn [Config.str].
    cbn [_blacklist_data with_blacklist_data]. rewrite lookup_insert_eq. cbn [fst].
    rewrite delete_insert_eq, delete_id by done.
    by destruct self.
  - unfold _blacklist_add, Config.put. cbn [Config.str _blacklist_data with_blacklist_data].
    rewrite insert_insert_eq. by destruct self.
  - unfold _blacklist_remove, Config.remove. cbn [Config.str].
    destruct (_blacklist_data self !! pretty object_id) as [v|] eqn:Hlk; cbn [fst].
    + cbn [_blacklist_data with_blacklist_data]. by rewrite lookup_delete_eq.
    + by rewrite Hlk.
Qed.

Lemma blacklist_round_trip_facts (self : Graha) (object_id : Z) :
  is_blocked (_blacklist_add self object_id) object_id = true
  ∧ is_blocked (fst (_blacklist_remove self object_id)) object_id = false.
Proof.
  split; [apply contains_put|].
  unfold _blacklist_remove, Config.remove, is_blocked, Config.contains. cbn [Config.str].
  destruct (_blacklist_data self !! pretty object_id) as [v|] eqn:Hlk; simpl.
  - apply bool_decide_eq_false. rewrite lookup_delete_eq. by intros [? ?].
  - apply bool_decide_eq_false. rewrite Hlk. by intros [? ?].
Qed.

(** X8.  [on_guild_join] never changes the bot and leaves the guild exactly
    when its id is blocked: it leaves after [_blacklist_add] of the guild and
    stays after [_blacklist_remove]. *)
Theorem guild_join_follows_blocklist (self : Graha) (guild_id : Z) :
  fst (on_guild_join self guild_id) = self
  ∧ (snd (on_guild_join self guild_id) = [Leave guild_id] ↔ is_blocked self guild_id = true)
  ∧ snd (on_guild_join (_blacklist_add self guild_id) guild_id) = [Leave guild_id]
  ∧ snd (on_guild_join (fst (_blacklist_remove self guild_id)) guild_id) = [].
Proof.
  destruct (blacklist_round_trip_facts self guild_id) as (Hadd & Hrm).
  unfold on_guild_join. rewrite Hadd, Hrm.
  destruct (is_blocked self guild_id); by repeat split.
Qed.

(** ** The gateway feed *)

Section FeedProperties.

Variable resolve_command : Graha → Message → option Command.
Variable new_ray_id : Message → string.
Variable time_time : Message → Q.
Variable str_casefold : string → string.

Local Abbreviation step := (process_commands resolve_command new_ray_id time_time).
Local Abbreviation handled_by := (handle resolve_command new_ray_id time_time).
Local Abbreviation feed_run := (run resolve_command new_ray_id time_time).
Local Abbreviation reaches_check := (reaches_rate_check resolve_command).
Local Abbreviation checks_in := (checks_of resolve_command new_ray_id time_time).
Local Abbreviation each_checked := (each_check resolve_command new_ray_id time_time).
Local Abbreviation state_after := (after_check time_time).

(** Every handler either does nothing or is one [process_commands]. *)
Lemma handle_cases (self : Graha) (ev : GatewayEvent) :
  handled_by self ev = (self, [])
  ∨ handled_by self ev = step self (event_message ev).
Proof.
  destruct ev as [m|b a]; simpl.
  - unfold on_message. destruct (bot (author m)); auto.
  - unfold on_message_edit. repeat case_match; auto.
Qed.








(** X13.  Messages that name no command are ignored entirely: a feed in which
    no message resolves to a command leaves the bot exactly as it was (no
    bucket is created, nothing is counted) and has no effect. *)
Theorem chatter_is_ignored (self : Graha) (feed : list GatewayEvent) :
  (∀ g ev, ev ∈ feed → resolve_command g (event_message ev) = None) →
  feed_run self feed = (self, replicate (length feed) []).
Proof.
  induction feed as [|ev feed IH]; intros Hnone; [done|].
  assert (Hstep : handled_by self ev = (self, [])).
  { destruct (handle_cases self ev) as [-> | ->]; [done|].
    apply process_commands_skip. unfold reaches_rate_check.
    rewrite Hnone; [done|by left]. }
  rewrite run_cons, Hstep. cbn [fst snd]. rewrite IH; [done|].
  intros g ev' Hin. apply Hnone. by right.
Qed.

End FeedProperties.

(** ** The error handler *)

Lemma filter_none {A : Type} (P : A → Prop) `{∀ x, Decision (P x)} (l : list A) :
  (∀ x, x ∈ l → ¬ P x) → filter P l = [].
Proof.
  induction l as [|a l IH]; intros Hall; [done|].
  rewrite filter_cons_False by (apply Hall; by left).
  apply IH. intros x Hx. apply Hall. by right.
Qed.

Section ErrorHandlerProperties.

Variable textwrap_shorten : string → Z → string.

Local Abbreviation handled_error := (on_command_error textwrap_shorten).

(** X14.  Whatever the error and the context, [on_command_error] adds the
    failure reaction to the message first and exactly once, and of the bot it
    changes nothing but the error cooldown. *)
Theorem error_marked_once (self : Graha) (now : Q) (ctx : Context) (error : CommandError) :
  ∃ rest,
    snd (fst (handled_error self now ctx error))
    = AddReaction (ctx_message ctx) "❌" :: rest
    ∧ filter (λ e, is_reaction e = true) rest = []
    ∧ with_error_handling_cooldown self
        (_error_handling_cooldown (fst (fst (handled_error self now ctx error))))
      = fst (fst (handled_error self now ctx error)).
Proof.
  unfold on_command_error.
  destruct (exc_handled ctx); [exists []; by destruct self|].
  destruct (command ctx) as [cmd|]; [|exists []; by destruct self].
  destruct error as [| |origin_|what].
  - destruct (mapping_update_rate_limit _ _ _) as [[r|] mapping]; by exists [].
  - destruct (mapping_update_rate_limit _ _ _) as [[r|] mapping]; by exists [].
  - eexists. split; [reflexivity|]. split; [by destruct origin_|by destruct self].
  - eexists. split; [reflexivity|]. split; [done|by destruct self].
Qed.

(** X15.  [on_command_error] sends a reply to the caller exactly when it
    sends a diagnostic to the operator channel, at most one of each; when it
    does, the reply quotes the ray id of the context and the diagnostic
    carries the same ray id in its footer. *)
Theorem error_reply_matches_diagnostic (self : Graha) (now : Q) (ctx : Context)
    (error : CommandError) :
  let effects := snd (fst (handled_error self now ctx error)) in
  length (filter (λ e, is_reply e = true) effects)
  = length (filter (λ e, is_operator_diagnostic e = true) effects)
  ∧ (length (filter (λ e, is_reply e = true) effects) <= 1)%nat
  ∧ (∀ e, e ∈ effects → is_reply e = true → e = Send ctx (ray_quote (ray_id ctx)))
  ∧ (∀ e, e ∈ effects → is_operator_diagnostic e = true →
       ∃ description command_name author_ channel_id guild_id content_,
         e = WebhookSend (CommandErrorEmbed description command_name author_ channel_id
                            guild_id content_ ("Ray ID: " +:+ ray_id ctx)%string)).
Proof.
  unfold on_command_error.
  assert (Hquiet : ∀ (g : Graha) (logged : list Effect) (out : Outcome unit),
            Forall (λ e, is_reply e = false ∧ is_operator_diagnostic e = false) logged →
            let effects := snd (fst (g, logged, out)) in
            length (filter (λ e, is_reply e = true) effects)
            = length (filter (λ e, is_operator_diagnostic e = true) effects)
            ∧ (length (filter (λ e, is_reply e = true) effects) <= 1)%nat
            ∧ (∀ e, e ∈ effects → is_reply e = true → e = Send ctx (ray_quote (ray_id ctx)))
            ∧ (∀ e, e ∈ effects → is_operator_diagnostic e = true →
                 ∃ description command_name author_ channel_id guild_id content_,
                   e = WebhookSend (CommandErrorEmbed description command_name author_
                                      channel_id guild_id content_
                                      ("Ray ID: " +:+ ray_id ctx)%string))).
  { intros g logged out Hall. cbn [fst snd]. rewrite Forall_forall in Hall.
    assert (Hr : filter (λ e, is_reply e = true) logged = []).
    { apply filter_none. intros e He. destruct (Hall e He). congruence. }
    assert (Hd : filter (λ e, is_operator_diagnostic e = true) logged = []).
    { apply filter_none. intros e He. destruct (Hall e He). congruence. }
    rewrite Hr, Hd. repeat split; try (simpl; lia).
    - intros e He Hrep. destruct (Hall e He). congruence.
    - intros e He Hdiag. destruct (Hall e He). congruence. }
  destruct (exc_handled ctx); [apply Hquiet; by repeat constructor|].
  destruct (command ctx) as [cmd|]; [|apply Hquiet; by repeat constructor].
  destruct error as [| |origin_|what].
  - destruct (mapping_update_rate_limit _ _ _) as [[r|] mapping];
      apply Hquiet; by repeat constructor.
  - destruct (mapping_update_rate_limit _ _ _) as [[r|] mapping];
      apply Hquiet; by repeat constructor.
  - apply Hquiet. destruct origin_; by repeat constructor.
  - cbn [fst snd]. repeat split; try done.
    + intros e He Hrep.
      repeat (apply elem_of_cons in He as [-> | He]); try done.
      by apply elem_of_nil in He.
    + intros e He Hdiag.
      repeat (apply elem_of_cons in He as [-> | He]); try done; [|by apply elem_of_nil in He].
      by repeat eexists.
Qed.

End ErrorHandlerProperties.

(** * Reset times ([extensions/resets.py]) *)

Lemma time_of_day_range (dt : datetime) :
  valid dt → 0 <= time_of_day dt < 86400000000.
Proof. intros (Hh & Hm & Hs & Hu). unfold time_of_day. lia. Qed.

(** X16.  At any moment [_get_daily_reset_time] is the next 15:00:00 UTC:
    it lies at 15:00 sharp, strictly after now and at most 24 hours away
    (at 15:00 sharp it is the following day's). *)
Theorem daily_reset_is_next (now : datetime) :
  valid now →
  valid (_get_daily_reset_time now)
  ∧ time_of_day (_get_daily_reset_time now) = 15 * 3600000000
  ∧ 0 < since (_get_daily_reset_time now) now <= 86400000000.
Proof.
  intros Hvalid. pose proof Hvalid as (Hh & Hm & Hs & Hu).
  unfold _get_daily_reset_time, since, valid.
  destruct (15 <=? hour now) eqn:Hlate; simpl; unfold time_of_day; simpl.
  - apply Z.leb_le in Hlate. lia.
  - apply Z.leb_gt in Hlate. lia.
Qed.

Lemma time_of_day_replace_hour (dt : datetime) (h : Z) :
  time_of_day (replace_hour dt h) = h * 3600000000.
Proof. unfold time_of_day. simpl. lia. Qed.

(** X17.  [_get_weekly_reset_time] always lies on a Tuesday at 08:00:00 UTC,
    less than seven days ahead.  It is after now except on a Tuesday from
    08:00 on, when it is that same morning's 08:00, already reached. *)
Theorem weekly_reset_is_tuesday (now : datetime) :
  valid now →
  weekday (_get_weekly_reset_time now) = 1
  ∧ time_of_day (_get_weekly_reset_time now) = 8 * 3600000000
  ∧ (since (_get_weekly_reset_time now) now <= 0
     ↔ weekday now = 1 ∧ 8 * 3600000000 <= time_of_day now)
  ∧ - (16 * 3600000000) < since (_get_weekly_reset_time now) now
    <= 6 * 86400000000 + 8 * 3600000000.
Proof.
  intros Hvalid. pose proof (time_of_day_range now Hvalid) as Htod.
  unfold _get_weekly_reset_time, since, weekday in *.
  rewrite !time_of_day_replace_hour.
  destruct (1 <=? (ordinal now + 6) mod 7) eqn:Hwd;
    [apply Z.leb_le in Hwd|apply Z.leb_gt in Hwd];
    cbn [ordinal add_days replace_hour];
    repeat split; Z.to_euclidean_division_equations; lia.
Qed.

(** * The fashion report ([extensions/fashion_report.py]) *)

(** ** Weeks since the start *)

Lemma round_half_even_shift (n d k : Z) :
  0 < d → round_half_even (n + 2 * k * d) d = round_half_even n d + 2 * k.
Proof.
  intros Hd. unfold round_half_even.
  rewrite Z.div_add by lia. rewrite Z.mod_add by lia.
  rewrite Z.even_add_mul_2.
  repeat case_match; lia.
Qed.

Lemma round_half_even_exact (k d : Z) :
  0 < d → round_half_even (k * d) d = k.
Proof.
  intros Hd. unfold round_half_even.
  rewrite Z.div_mul by lia. rewrite Z.mod_mul by lia.
  destruct (2 * 0 <? d) eqn:Hlt; [done|]. apply Z.ltb_ge in Hlt. lia.
Qed.

Lemma start_ordinal : ordinal FASHION_REPORT_START = 736720.
Proof. reflexivity. Qed.

Lemma since_add_days (dt base : datetime) (days : Z) :
  since (add_days dt days) base = since dt base + days * 86400000000.
Proof. unfold since, add_days, time_of_day. simpl. lia. Qed.

(** X18.  [weeks_since_start] is 0 at [FASHION_REPORT_START] (Friday
    2018-01-26 08:00 UTC) and moving a moment by [k] whole weeks moves its
    week number by exactly [k], before the start as after it. *)
Theorem weeks_since_start_shift (dt : datetime) (k : Z) :
  weeks_since_start FASHION_REPORT_START = 0
  ∧ weekday FASHION_REPORT_START = 4
  ∧ weeks_since_start (add_days dt (7 * k)) = weeks_since_start dt + k.
Proof.
  split; [reflexivity|]. split; [reflexivity|].
  unfold weeks_since_start, rounded_seconds. rewrite since_add_days.
  replace (7 * k * 86400000000) with (2 * (302400 * k) * 1000000) by lia.
  rewrite round_half_even_shift by lia.
  change (60 * 60 * 24 * 7) with 604800.
  replace (2 * (302400 * k)) with (k * 604800) by lia.
  by rewrite Z.div_add by lia.
Qed.

Lemma whole_seconds_since_start (dt : datetime) :
  microsecond dt = 0 →
  rounded_seconds (since dt FASHION_REPORT_START) * 1000000
  = since dt FASHION_REPORT_START.
Proof.
  intros Hus. unfold rounded_seconds.
  set (s := (ordinal dt - 736720) * 86400
            + ((hour dt * 60 + minute dt) * 60 + second dt - 28800)).
  assert (Hs : since dt FASHION_REPORT_START = s * 1000000).
  { unfold since, time_of_day. rewrite start_ordinal, Hus. simpl. lia. }
  rewrite Hs. by rewrite round_half_even_exact by lia.
Qed.

(** X19.  For a moment on a whole second, the week number is [w] exactly
    from the [w]-th Friday 08:00:00 UTC after the start until just before
    the next one. *)
Theorem weeks_since_start_boundaries (dt : datetime) (w : Z) :
  microsecond dt = 0 →
  weekday (add_days FASHION_REPORT_START (7 * w)) = 4
  ∧ time_of_day (add_days FASHION_REPORT_START (7 * w)) = 8 * 3600000000
  ∧ (weeks_since_start dt = w
     ↔ 0 <= since dt (add_days FASHION_REPORT_START (7 * w)) < timedelta_days 7).
Proof.
  intros Hus. split; [|split].
  - unfold weekday, add_days. cbn [ordinal]. rewrite start_ordinal.
    Z.to_euclidean_division_equations. lia.
  - reflexivity.
  - pose proof (whole_seconds_since_start dt Hus) as Hwhole.
    assert (Hsince : since dt (add_days FASHION_REPORT_START (7 * w))
                     = since dt FASHION_REPORT_START - 7 * w * 86400000000).
    { unfold since, add_days, time_of_day. simpl. lia. }
    rewrite Hsince. unfold weeks_since_start, timedelta_days.
    change (60 * 60 * 24 * 7) with 604800.
    split; intros H; Z.to_euclidean_division_equations; lia.
Qed.

(** ** The title pattern *)

Lemma append_assoc_ (a b c : string) : ((a +:+ b) +:+ c = a +:+ (b +:+ c))%string.
Proof. induction a as [|x a IH]; [done|]. change (String x ((a +:+ b) +:+ c) = String x (a +:+ b +:+ c)). by rewrite IH. Qed.

Lemma literal_spec (lit s r : string) :
  literal lit s = Some r → s = (lit +:+ r)%string.
Proof.
  revert s. induction lit as [|a lit IH]; intros s; simpl.
  - by intros [= ->].
  - destruct s as [|b s]; [done|].
    destruct (Ascii.eqb a b) eqn:Hab; [|done].
    apply Ascii.eqb_eq in Hab as ->. intros Hrest.
    change (String b s = String b (lit +:+ r)). by rewrite (IH s Hrest).
Qed.

Lemma digits_spec (n : nat) (s ds r : string) :
  digits n s = Some (ds, r) →
  s = (ds +:+ r)%string ∧ String.length ds = n ∧ all_digits ds = true.
Proof.
  revert s ds. induction n as [|n IH]; intros s ds; simpl.
  - by intros [= <- <-].
  - destruct s as [|c s]; [done|].
    destruct (is_digit c) eqn:Hc; [|done].
    destruct (digits n s) as [[ds' r']|] eqn:Hrest; [|done].
    intros [= <- <-]. destruct (IH s ds' Hrest) as (-> & Hlen & Hall).
    simpl. rewrite Hc, Hall, Hlen. by repeat split.
Qed.

Lemma digits_1_2_spec {A : Type} (s : string) (k : string → string → option A) (a : A) :
  digits_1_2 s k = Some a →
  ∃ ds r, s = (ds +:+ r)%string
          ∧ (String.length ds = 1 ∨ String.length ds = 2)%nat
          ∧ all_digits ds = true
          ∧ k ds r = Some a.
Proof.
  unfold digits_1_2.
  destruct (digits 2 s) as [[ds2 r2]|] eqn:H2.
  - destruct (k ds2 r2) as [a2|] eqn:Hk2.
    + intros [= <-]. destruct (digits_spec _ _ _ _ H2) as (-> & Hlen & Hall).
      exists ds2, r2. by repeat split; auto.
    + destruct (digits 1 s) as [[ds1 r1]|] eqn:H1; [|done].
      intros Hk1. destruct (digits_spec _ _ _ _ H1) as (-> & Hlen & Hall).
      exists ds1, r1. by repeat split; auto.
  - destruct (digits 1 s) as [[ds1 r1]|] eqn:H1; [|done].
    intros Hk1. destruct (digits_spec _ _ _ _ H1) as (-> & Hlen & Hall).
    exists ds1, r1. by repeat split; auto.
Qed.

Lemma match_here_spec (s : string) (m : ReportMatch) :
  match_here s = Some m →
  ∃ d1 d2 year post,
    s = ("Fashion Report - Full Details - For Week of " +:+ date m +:+ " (Week "
         +:+ week_num m +:+ ")" +:+ post)%string
    ∧ date m = (d1 +:+ "/" +:+ d2 +:+ "/" +:+ year)%string
    ∧ (String.length d1 = 1 ∨ String.length d1 = 2)%nat ∧ all_digits d1 = true
    ∧ (String.length d2 = 1 ∨ String.length d2 = 2)%nat ∧ all_digits d2 = true
    ∧ String.length year = 4%nat ∧ all_digits year = true
    ∧ String.length (week_num m) = 3%nat ∧ all_digits (week_num m) = true.
Proof.
  unfold match_here.
  destruct (literal _ s) as [s1|] eqn:H1; [|done].
  intros Hk. apply digits_1_2_spec in Hk as (d1 & s2 & -> & Hl1 & Ha1 & Hk).
  destruct (literal "/" s2) as [s3|] eqn:H3; [|done].
  apply digits_1_2_spec in Hk as (d2 & s4 & -> & Hl2 & Ha2 & Hk).
  destruct (literal "/" s4) as [s5|] eqn:H5; [|done].
  destruct (digits 4 s5) as [[year s6]|] eqn:H6; [|done].
  destruct (literal " (Week " s6) as [s7|] eqn:H7; [|done].
  destruct (digits 3 s7) as [[week s8]|] eqn:H8; [|done].
  destruct (literal ")" s8) as [post|] eqn:H9; [|done].
  injection Hk as <-.
  apply literal_spec in H1, H3, H5, H7, H9.
  apply digits_spec in H6 as (H6 & Hly & Hay), H8 as (H8 & Hlw & Haw).
  subst. exists d1, d2, year, post. cbn [date week_num].
  repeat split; try done.
  by rewrite !append_assoc_.
Qed.

Lemma search_spec (s : string) (m : ReportMatch) :
  search s = Some m →
  ∃ pre tail, s = (pre +:+ tail)%string ∧ match_here tail = Some m.
Proof.
  induction s as [|c s IH].
  - cbn [search]. destruct (match_here "") eqn:Hm; [|done].
    intros [= <-]. by exists ""%string, ""%string.
  - cbn [search]. destruct (match_here (String c s)) eqn:Hm.
    + intros [= <-]. by exists ""%string, (String c s).
    + intros Hs. destruct (IH Hs) as (pre & tail & -> & Htail).
      by exists (String c pre), tail.
Qed.

Lemma three_digits_value (w : string) :
  String.length w = 3%nat → all_digits w = true → 0 <= int_of_digits w <= 999.
Proof.
  destruct w as [|a [|b [|c [|? ?]]]]; try done. intros _. simpl.
  unfold is_digit. rewrite !andb_true_iff, !N.leb_le. unfold int_of_digits. simpl.
  lia.
Qed.

(** X20.  Whatever the title, a match of [FASHION_REPORT_PATTERN] found by
    [search] is a piece of the title of the pattern's shape: its [date] is
    one or two digits, a slash, one or two digits, a slash and four digits,
    and its [week_num] is exactly three digits, a number from 0 to 999. *)
Theorem pattern_match_shape (s : string) (m : ReportMatch) :
  search s = Some m →
  ∃ pre post d1 d2 year,
    s = (pre +:+ "Fashion Report - Full Details - For Week of " +:+ date m +:+ " (Week "
         +:+ week_num m +:+ ")" +:+ post)%string
    ∧ date m = (d1 +:+ "/" +:+ d2 +:+ "/" +:+ year)%string
    ∧ (String.length d1 = 1 ∨ String.length d1 = 2)%nat ∧ all_digits d1 = true
    ∧ (String.length d2 = 1 ∨ String.length d2 = 2)%nat ∧ all_digits d2 = true
    ∧ String.length year = 4%nat ∧ all_digits year = true
    ∧ String.length (week_num m) = 3%nat ∧ all_digits (week_num m) = true
    ∧ 0 <= int_of_digits (week_num m) <= 999.
Proof.
  intros Hs. apply search_spec in Hs as (pre & tail & -> & Hm).
  apply match_here_spec in Hm
    as (d1 & d2 & year & post & -> & Hdate & H1 & H2 & H3 & H4 & H5 & H6 & H7 & H8).
  exists pre, post, d1, d2, year. repeat split; try done.
  all: by apply three_digits_value.
Qed.

(** ** The countdown *)


Section ReportProperties.

Variable plural : Z → string → string.
Variable str_title : string → string.

Local Abbreviation humanify := (humanify_delta plural str_title).
Local Abbreviation filtered := (filter_submissions plural str_title).
Local Abbreviation report := (fashion_report plural str_title).

(** X22.  [humanify_delta] words a delta as days, hours, minutes and seconds
    that add up to the delta rounded to whole seconds, with the hours below
    24 and the minutes and seconds below 60 and none of the three negative;
    a negative delta shows in the days alone. *)
Theorem humanify_delta_parts (td : Z) (format : string) :
  ∃ days hours minutes seconds,
    humanify td format
    = (str_title format +:+ " in " +:+ plural days "day" +:+ ", " +:+ plural hours "hour"
       +:+ ", " +:+ plural minutes "minute" +:+ " and " +:+ plural seconds "second"
       +:+ ".")%string
    ∧ 0 <= hours < 24 ∧ 0 <= minutes < 60 ∧ 0 <= seconds < 60
    ∧ days * 86400 + hours * 3600 + minutes * 60 + seconds = rounded_seconds td
    ∧ (days < 0 ↔ rounded_seconds td < 0).
Proof.
  unfold humanify_delta.
  change (60 * 60 * 24) with 86400. change (60 * 60) with 3600.
  eexists _, _, _, _. split; [reflexivity|].
  repeat split; Z.to_euclidean_division_equations; lia.
Qed.

Lemma filter_submissions_now (children : list Submission) :
  ∀ now clock,
    filtered now clock children = filtered (Some (default clock now)) clock children.
Proof.
  induction children as [|s rest IH]; intros now clock; [done|].
  cbn [filter_submissions]. destruct (search (title s)) as [m|]; [|apply IH].
  by destruct now.
Qed.

Lemma filter_submissions_skip (now clock : datetime) (s : Submission)
    (rest : list Submission) :
  qualifies now s = false →
  filtered (Some now) clock (s :: rest) = filtered (Some now) clock rest.
Proof.
  unfold qualifies. cbn [filter_submissions].
  destruct (search (title s)) as [m|]; [|done].
  destruct (weeks_since_start now =? int_of_digits (week_num m)); [|done].
  cbn [negb andb]. by intros ->%negb_false_iff.
Qed.

(** X23.  [filter_submissions] looks at the listing in order and answers with
    the first submission that qualifies (title matches, week number is the
    current one, at most seven days old): the prose quotes the date and week
    of its title, the link is its url; when none qualifies, an empty listing
    included, it raises [ValueError].  A [now] handed in is used instead of
    the clock. *)
Theorem filter_submissions_first (now : option datetime) (clock : datetime)
    (children : list Submission) :
  let at_ := default clock now in
  ((∀ s, s ∈ children → qualifies at_ s = false) →
   filtered now clock children = ValueError "Unabled to fetch the reddit post details.")
  ∧ (∀ before s after m,
       children = before ++ s :: after →
       (∀ x, x ∈ before → qualifies at_ x = false) →
       qualifies at_ s = true →
       search (title s) = Some m →
       filtered now clock children
       = Fetch (("Fashion Report details for week of " +:+ date m +:+ " (Week "
                 +:+ week_num m +:+ ")")%string,
                humanify (since (upcoming at_).1.1 at_) (upcoming at_).1.2,
                url s, (upcoming at_).2)).
Proof.
  intros at_. rewrite filter_submissions_now. fold at_. split.
  - induction children as [|s rest IH]; intros Hnone; [done|].
    rewrite filter_submissions_skip by (apply Hnone; by left).
    apply IH. intros x Hx. apply Hnone. by right.
  - intros before s after m -> Hbefore Hs Hm.
    induction before as [|x before IH].
    + unfold qualifies in Hs. cbn [app filter_submissions]. rewrite Hm in Hs |- *.
      apply andb_true_iff in Hs as [Hweek Hage]. rewrite Hweek.
      apply negb_true_iff in Hage. rewrite Hage. cbn [negb].
      by destruct (upcoming at_) as [[ev fmt] colour].
    + cbn [app]. rewrite filter_submissions_skip by (apply Hbefore; by left).
      apply IH. intros y Hy. apply Hbefore. by right.
Qed.

(** X24.  The command sends the plain notice that the post is not up yet
    exactly when no submission of the listing qualifies at the time of the
    clock; otherwise it sends a report embed whose link and image are the
    url of a qualifying submission. *)
Theorem fashion_report_notice (clock : datetime) (children : list Submission) :
  (report clock children = PlainEmbed "Seems the post for this week isn't up yet."
   ↔ ∀ s, s ∈ children → qualifies clock s = false)
  ∧ (∀ title_ url_ colour description image,
       report clock children = ReportEmbed title_ url_ colour description image →
       image = url_
       ∧ ∃ s, s ∈ children ∧ qualifies clock s = true ∧ url s = url_).
Proof.
  unfold fashion_report, _gen_fashion_embed.
  rewrite filter_submissions_now. cbn [default].
  induction children as [|s rest IH].
  - cbn [filter_submissions]. split; [split; [|done]|done].
    intros _ x Hx. by apply elem_of_nil in Hx.
  - destruct (qualifies clock s) eqn:Hq.
    + pose proof Hq as Hq'. unfold qualifies in Hq'. cbn [filter_submissions].
      destruct (search (title s)) as [m|]; [|done].
      apply andb_true_iff in Hq' as [Hweek Hage]. rewrite Hweek.
      apply negb_true_iff in Hage. rewrite Hage. cbn [negb].
      destruct (upcoming clock) as [[ev fmt] colour]. split.
      * split; [done|]. intros Hnone. rewrite Hnone in Hq; [done|by left].
      * intros t u c d i [= <- <- <- <- <-]. split; [done|].
        exists s. split; [by left|done].
    + rewrite filter_submissions_skip by done. destruct IH as [IH1 IH2]. split.
      * rewrite IH1. split.
        -- intros Hrest x Hx. apply elem_of_cons in Hx as [-> | Hx]; [done|by apply Hrest].
        -- intros Hall x Hx. apply Hall. by right.
      * intros t u c d i Heq. destruct (IH2 t u c d i Heq) as (Himg & x & Hx & Hqx & Hu).
        split; [done|]. exists x. split; [by right|done].
Qed.

(** X25.  From the thousandth week on ([FASHION_REPORT_START] plus 7000 days,
    2037-03-27 08:00 UTC) and before the start, no title can carry the
    current week in the three digits of the pattern: whatever the listing,
    the command sends the notice. *)
Theorem fashion_report_week_limit (clock : datetime) (children : list Submission) :
  weeks_since_start clock < 0 ∨ 1000 <= weeks_since_start clock →
  report clock children = PlainEmbed "Seems the post for this week isn't up yet.".
Proof.
  intros Hweek. unfold fashion_report, _gen_fashion_embed.
  rewrite filter_submissions_now. cbn [default].
  induction children as [|s rest IH]; [done|].
  rewrite filter_submissions_skip; [done|].
  unfold qualifies. destruct (search (title s)) as [m|] eqn:Hm; [|done].
  apply search_spec in Hm as (pre & tail & _ & Hm).
  apply match_here_spec in Hm as (d1 & d2 & year & post & _ & _ & _ & _ & _ & _ & _ & _ & Hl & Ha).
  pose proof (three_digits_value _ Hl Ha) as Hrange.
  destruct (weeks_since_start clock =? int_of_digits (week_num m)) eqn:Heq; [|done].
  apply Z.eqb_eq in Heq. lia.
Qed.

End ReportProperties.

(** * Start-up *)

Lemma length_append_ (a b : string) :
  String.length (a +:+ b) = (String.length a + String.length b)%nat.
Proof.
  induction a as [|x a IH]; [done|].
  change (S (String.length (a +:+ b)) = S (String.length a + String.length b)).
  by rewrite IH.
Qed.

Lemma removesuffix_append (suffix s : string) :
  removesuffix suffix (s +:+ suffix) = s.
Proof.
  induction s as [|c s IH].
  - change (removesuffix suffix suffix = ""%string).
    destruct suffix as [|x suffix]; simpl; [done|].
    by rewrite Ascii.eqb_refl, String.eqb_refl.
  - change (removesuffix suffix (String c (s +:+ suffix)) = String c s).
    cbn [removesuffix].
    destruct (String.eqb (String c (s +:+ suffix)) suffix) eqn:Heq.
    + apply String.eqb_eq in Heq.
      apply (f_equal String.length) in Heq. simpl in Heq.
      rewrite length_append_ in Heq. lia.
    + by rewrite IH.
Qed.

Lemma join_dots_snoc (dir : list string) (x : string) :
  dir ≠ [] → join_dots (dir ++ [x]) = (join_dots dir +:+ "." +:+ x)%string.
Proof.
  induction dir as [|a dir IH]; [done|]. intros _.
  destruct dir as [|b dir]; [done|].
  change ((a +:+ "." +:+ join_dots ((b :: dir) ++ [x]))%string
          = ((a +:+ "." +:+ join_dots (b :: dir)) +:+ "." +:+ x)%string).
  rewrite IH by done. by rewrite !append_assoc_.
Qed.

(** X26.  The extension a file is loaded as is its dotted path without the
    final [.py]: for the parts [dir] and [name.py] it is the parts [dir] and
    [name] joined by dots. *)
Theorem extension_name (dir : list string) (name_ : string) :
  removesuffix ".py" (join_dots (dir ++ [(name_ +:+ ".py")%string]))
  = join_dots (dir ++ [name_]).
Proof.
  destruct dir as [|a dir].
  - apply removesuffix_append.
  - rewrite !join_dots_snoc by done.
    rewrite <- !append_assoc_. apply removesuffix_append.
Qed.

Section MainProperties.

Variable raises : string → bool.

Local Abbreviation main_ := (main raises).

Lemma try_load_not_start (ext : string) : try_load raises ext ≠ Start.
Proof. unfold try_load. by destruct (raises ext). Qed.

Lemma load_files_no_start (files : list PathEntry) : Start ∉ load_files raises files.
Proof.
  induction files as [|f files IH]; simpl; [apply not_elem_of_nil|].
  destruct (skipped f); [done|].
  apply not_elem_of_cons. split; [|done].
  intros Heq. by apply (try_load_not_start (removesuffix ".py" (join_dots (parts f)))).
Qed.

Lemma load_modules_cases (directories : list PathEntry) :
  (snd (load_modules raises directories) = Started
   ∧ Start ∈ fst (load_modules raises directories)
   ∧ ∀ d, d ∈ directories → is_dir d = true)
  ∨ (snd (load_modules raises directories) = ReturnedEarly
     ∧ (Start ∉ fst (load_modules raises directories))
     ∧ ∃ d, d ∈ directories ∧ is_dir d = false).
Proof.
  induction directories as [|d ds IH]; simpl.
  - left. split; [done|]. split; [by left|]. intros d Hd. by apply elem_of_nil in Hd.
  - destruct (is_dir d) eqn:Hd; simpl.
    + destruct (load_modules raises ds) as [log ending]. simpl in *.
      destruct IH as [(-> & Hin & Hall) | (-> & Hout & x & Hx & Hxd)].
      * left. split; [done|]. split; [by right|].
        intros y Hy. apply elem_of_cons in Hy as [-> | Hy]; [done|by apply Hall].
      * right. split; [done|]. split.
        -- apply not_elem_of_cons. split; [|done].
           intros Heq. symmetry in Heq. by apply try_load_not_start in Heq.
        -- exists x. split; [by right|done].
    + right. split; [done|]. split; [apply not_elem_of_nil|].
      exists d. split; [by left|done].
Qed.

(** X27.  [main] reaches [bot.start()] exactly when [jishaku] loads and every
    path the search for [ext-*] yields is a directory; one that is not makes
    [main] return without starting the bot.  Extensions that fail to load
    never keep it from starting. *)
Theorem main_starts_iff (files directories : list PathEntry) :
  (snd (main_ files directories) = Started
   ↔ raises "jishaku" = false ∧ ∀ d, d ∈ directories → is_dir d = true)
  ∧ (Start ∈ fst (main_ files directories) ↔ snd (main_ files directories) = Started)
  ∧ (raises "jishaku" = false →
     (∃ d, d ∈ directories ∧ is_dir d = false) →
     snd (main_ files directories) = ReturnedEarly).
Proof.
  unfold main. destruct (raises "jishaku") eqn:Hj.
  - cbn [fst snd]. split; [split; [done|by intros [? _]]|]. split; [|done].
    split; [|done]. intros Hin. by apply elem_of_nil in Hin.
  - pose proof (load_files_no_start files) as Hfiles.
    destruct (load_modules_cases directories)
      as [(Hend & Hin & Hall) | (Hend & Hout & x & Hx & Hxd)];
      destruct (load_modules raises directories) as [log ending];
      cbn [fst snd] in *; subst ending.
    + split; [done|]. split.
      * split; [done|]. intros _. right. apply elem_of_app. by right.
      * intros _ (d & Hd & Hdd). rewrite (Hall d Hd) in Hdd. done.
    + split; [split; [done|]|].
      * intros [_ Hall]. rewrite (Hall x Hx) in Hxd. done.
      * split; [|done]. split; [|done]. intros Hin.
        apply elem_of_cons in Hin as [Heq | Hin]; [done|].
        apply elem_of_app in Hin as [Hin | Hin]; done.
Qed.

Lemma load_files_attempts (files : list PathEntry) (file : PathEntry) :
  file ∈ files →
  skipped file = false →
  try_load raises (removesuffix ".py" (join_dots (parts file))) ∈ load_files raises files.
Proof.
  induction files as [|f files IH]; intros Hin Hskip; [by apply elem_of_nil in Hin|].
  simpl. apply elem_of_cons in Hin as [<- | Hin].
  - rewrite Hskip. by left.
  - destruct (skipped f); [by apply IH|]. right. by apply IH.
Qed.

(** X28.  Once [jishaku] has loaded, every file of the first search that is
    not left to an [ext-] package is tried, whatever happens to the others:
    it is loaded when its [load_extension] does not raise and logged as
    failed when it does, also when [main] then returns early. *)
Theorem every_extension_is_tried (files directories : list PathEntry) (file : PathEntry) :
  raises "jishaku" = false →
  file ∈ files →
  skipped file = false →
  let ext := removesuffix ".py" (join_dots (parts file)) in
  (raises ext = false → Loaded ext ∈ fst (main_ files directories))
  ∧ (raises ext = true → Failed ext ∈ fst (main_ files directories)).
Proof.
  intros Hj Hin Hskip ext.
  pose proof (load_files_attempts files file Hin Hskip) as Htry. fold ext in Htry.
  unfold main. rewrite Hj. destruct (load_modules raises directories) as [log ending].
  cbn [fst]. unfold try_load in Htry.
  split; intros Hr; rewrite Hr in Htry; right; apply elem_of_app; by left.
Qed.

End MainProperties.

(** * Further instances *)

(** An author without a display name, a member, and an author whose name
    starts with a character that case-folds to two. *)
Lemma callable_prefix_outcome_witness :
  display_name (author (private_message nameless)) = EmptyString
  ∧ callable_prefix sample_casefold sample_prefixed (private_message nameless)
    = Raised IndexError
  ∧ display_name (author (private_message sample_sharp)) ≠ EmptyString
  ∧ (∃ character rest middle,
       display_name (author (private_message sample_sharp)) = (character +:+ rest)%string
       ∧ character ≠ EmptyString
       ∧ first_character (display_name (author (private_message sample_sharp)))
         = Returned character
       ∧ callable_prefix sample_casefold sample_prefixed (private_message sample_sharp)
         = Returned (when_mentioned sample_prefixed ++ middle
                     ++ [(sample_casefold character +:+ " ")%string])
       ∧ middle ≠ [])
  ∧ callable_prefix sample_casefold sample_prefixed (private_message sample_sharp)
    = Returned ["<@90> "; "<@!90> "; "gt "; "ss "]%string.
Proof.
  destruct (callable_prefix_outcome sample_casefold sample_prefixed
              (private_message nameless)) as [Hempty _].
  destruct (callable_prefix_outcome sample_casefold sample_prefixed
              (private_message sample_sharp)) as [_ Hsharp].
  assert (Hne : display_name (author (private_message sample_sharp)) ≠ EmptyString)
    by (intros H; discriminate H).
  split; [reflexivity|]. split; [exact (proj1 Hempty eq_refl)|]. split; [exact Hne|].
  split; [exact (Hsharp Hne)|]. vm_compute. reflexivity.
Defined.

(** A direct message to the bot that has prefixes stored for guild 50. *)
Lemma callable_prefix_private_witness :
  guild (private_message sample_member) = None
  ∧ first_character (display_name (author (private_message sample_member))) = Returned "A"
  ∧ callable_prefix sample_casefold
      (with_prefix_data sample_graha (_prefix_data sample_prefixed))
      (private_message sample_member)
    = Returned (when_mentioned sample_graha ++ ["gt "%string; "a "%string]).
Proof.
  split; [reflexivity|]. split; [reflexivity|].
  exact (callable_prefix_private sample_casefold sample_graha (private_message sample_member)
           (_prefix_data sample_prefixed) "A"%string eq_refl eq_refl).
Defined.

(** Exactly ten prefixes are accepted and come back, here to an author
    whose name starts outside ASCII. *)
Lemma set_guild_prefixes_round_trip_witness :
  ten_prefixes ≠ []
  ∧ (length ten_prefixes <= 10)%nat
  ∧ snd (_set_guild_prefixes sample_graha 50 (Some ten_prefixes)) = Returned tt
  ∧ callable_prefix sample_casefold
      (fst (_set_guild_prefixes sample_graha 50 (Some ten_prefixes)))
      (sample_message sample_accented 0)
    = Returned (when_mentioned sample_graha ++ ten_prefixes ++ ["é "%string]).
Proof.
  assert (Hne : ten_prefixes ≠ []) by (intros H; discriminate H).
  assert (Hlen : (length ten_prefixes <= 10)%nat) by (simpl; lia).
  destruct (set_guild_prefixes_round_trip sample_casefold sample_graha 50 ten_prefixes
              Hne Hlen) as (Hret & _ & Hresolve).
  split; [exact Hne|]. split; [exact Hlen|]. split; [exact Hret|].
  exact (Hresolve (sample_message sample_accented 0) "É"%string eq_refl eq_refl).
Defined.

(** Prefixes set for guild 51 do not reach a message of guild 50. *)
Lemma set_guild_prefixes_other_guild_witness :
  guild (sample_message sample_member 0) ≠ Some 51
  ∧ callable_prefix sample_casefold
      (fst (_set_guild_prefixes sample_prefixed 51 (Some ["$"%string])))
      (sample_message sample_member 0)
    = callable_prefix sample_casefold sample_prefixed (sample_message sample_member 0).
Proof.
  assert (Hne : guild (sample_message sample_member 0) ≠ Some 51)
    by (intros H; discriminate H).
  split; [exact Hne|].
  exact (set_guild_prefixes_other_guild sample_casefold sample_prefixed 51
           (Some ["$"%string]) (sample_message sample_member 0) Hne).
Defined.

(** A guild never configured, and guild 50 after its prefixes were cleared. *)
Lemma raw_prefixes_after_clearing_witness :
  _prefix_data sample_prefixed !! pretty 51 = None
  ∧ _get_guild_prefixes sample_prefixed 51 (λ _ _, []) true = ["gt "%string]
  ∧ _get_guild_prefixes (fst (_set_guild_prefixes sample_prefixed 50 (Some []))) 50
      (λ _ _, []) true = [].
Proof.
  assert (Hnone : _prefix_data sample_prefixed !! pretty 51 = None)
    by (vm_compute; reflexivity).
  destruct (raw_prefixes_after_clearing sample_prefixed 51 (λ _ _, [])) as [Hdefault _].
  destruct (raw_prefixes_after_clearing sample_prefixed 50 (λ _ _, [])) as [_ Hcleared].
  split; [exact Hnone|]. split; [exact (Hdefault Hnone)|].
  exact (Hcleared (Some []) (or_intror eq_refl)).
Defined.

(** Blocking and unblocking user 2 does not touch user 1. *)
Lemma blacklist_other_ids_witness :
  2 ≠ 1
  ∧ is_blocked (_blacklist_add sample_graha 2) 1 = is_blocked sample_graha 1
  ∧ is_blocked (fst (_blacklist_remove (_blacklist_add sample_graha 1) 2)) 1
    = is_blocked (_blacklist_add sample_graha 1) 1.
Proof.
  assert (Hne : 2 ≠ 1) by lia.
  split; [exact Hne|]. split.
  - exact (proj1 (blacklist_other_ids sample_graha 2 1 Hne)).
  - exact (proj2 (blacklist_other_ids (_blacklist_add sample_graha 1) 2 1 Hne)).
Defined.

(** User 2 is not blocked at first. *)
Lemma blacklist_add_remove_restores_witness :
  is_blocked sample_prefixed 2 = false
  ∧ fst (_blacklist_remove (_blacklist_add sample_prefixed 2) 2) = sample_prefixed.
Proof.
  assert (Hfree : is_blocked sample_prefixed 2 = false) by (vm_compute; reflexivity).
  split; [exact Hfree|].
  exact (proj1 (blacklist_add_remove_restores sample_prefixed 2) Hfree).
Defined.



(** Three events without a command. *)
Lemma chatter_is_ignored_witness :
  (∀ g ev, ev ∈ chatter_feed → sample_resolve g (event_message ev) = None)
  ∧ run sample_resolve sample_ray sample_clock sample_graha chatter_feed
    = (sample_graha, replicate (length chatter_feed) []).
Proof.
  assert (Hnone : ∀ g ev, ev ∈ chatter_feed → sample_resolve g (event_message ev) = None).
  { intros g ev Hin. unfold chatter_feed in Hin.
    repeat (apply elem_of_cons in Hin as [-> | Hin]; [reflexivity|]).
    by apply elem_of_nil in Hin. }
  split; [exact Hnone|].
  exact (chatter_is_ignored sample_resolve sample_ray sample_clock sample_graha
           chatter_feed Hnone).
Defined.

Lemma sample_now_valid : valid sample_now.
Proof. unfold valid. simpl. lia. Defined.

(** On Tuesday 2022-07-12 at 10:30:15.25 the daily reset is 4 hours 29
    minutes 44.75 seconds ahead. *)
Lemma daily_reset_is_next_witness :
  valid sample_now
  ∧ since (_get_daily_reset_time sample_now) sample_now = 16184750000
  ∧ valid (_get_daily_reset_time sample_now)
  ∧ time_of_day (_get_daily_reset_time sample_now) = 15 * 3600000000
  ∧ 0 < since (_get_daily_reset_time sample_now) sample_now <= 86400000000.
Proof.
  split; [exact sample_now_valid|]. split; [reflexivity|].
  exact (daily_reset_is_next sample_now sample_now_valid).
Defined.

(** On that Tuesday at 10:30:15.25 the weekly reset is the same morning's
    08:00, two and a half hours back. *)
Lemma weekly_reset_is_tuesday_witness :
  valid sample_now
  ∧ since (_get_weekly_reset_time sample_now) sample_now = -9015250000
  ∧ weekday (_get_weekly_reset_time sample_now) = 1
  ∧ time_of_day (_get_weekly_reset_time sample_now) = 8 * 3600000000
  ∧ (since (_get_weekly_reset_time sample_now) sample_now <= 0
     ↔ weekday sample_now = 1 ∧ 8 * 3600000000 <= time_of_day sample_now)
  ∧ - (16 * 3600000000) < since (_get_weekly_reset_time sample_now) sample_now
    <= 6 * 86400000000 + 8 * 3600000000.
Proof.
  split; [exact sample_now_valid|]. split; [reflexivity|].
  exact (weekly_reset_is_tuesday sample_now sample_now_valid).
Defined.

(** Week 232 begins on Friday 2022-07-08 at 08:00:00. *)
Lemma weeks_since_start_boundaries_witness :
  microsecond sample_friday = 0
  ∧ weeks_since_start sample_friday = 232
  ∧ weekday (add_days FASHION_REPORT_START (7 * 232)) = 4
  ∧ time_of_day (add_days FASHION_REPORT_START (7 * 232)) = 8 * 3600000000
  ∧ (weeks_since_start sample_friday = 232
     ↔ 0 <= since sample_friday (add_days FASHION_REPORT_START (7 * 232))
       < timedelta_days 7).
Proof.
  split; [reflexivity|]. split; [reflexivity|].
  exact (weeks_since_start_boundaries sample_friday 232 eq_refl).
Defined.

(** A title with something in front of the pattern. *)
Lemma pattern_match_shape_witness :
  search "[OC] Fashion Report - Full Details - For Week of 7/8/2022 (Week 232)"
  = Some (mkReportMatch "7/8/2022" "232")
  ∧ int_of_digits "232" = 232
  ∧ ∃ pre post d1 d2 year,
      "[OC] Fashion Report - Full Details - For Week of 7/8/2022 (Week 232)"%string
      = (pre +:+ "Fashion Report - Full Details - For Week of "
         +:+ date (mkReportMatch "7/8/2022" "232") +:+ " (Week "
         +:+ week_num (mkReportMatch "7/8/2022" "232") +:+ ")" +:+ post)%string
      ∧ date (mkReportMatch "7/8/2022" "232") = (d1 +:+ "/" +:+ d2 +:+ "/" +:+ year)%string
      ∧ (String.length d1 = 1 ∨ String.length d1 = 2)%nat ∧ all_digits d1 = true
      ∧ (String.length d2 = 1 ∨ String.length d2 = 2)%nat ∧ all_digits d2 = true
      ∧ String.length year = 4%nat ∧ all_digits year = true
      ∧ String.length (week_num (mkReportMatch "7/8/2022" "232")) = 3%nat
      ∧ all_digits (week_num (mkReportMatch "7/8/2022" "232")) = true
      ∧ 0 <= int_of_digits (week_num (mkReportMatch "7/8/2022" "232")) <= 999.
Proof.
  assert (Hm : search "[OC] Fashion Report - Full Details - For Week of 7/8/2022 (Week 232)"
               = Some (mkReportMatch "7/8/2022" "232")) by (vm_compute; reflexivity).
  split; [exact Hm|]. split; [reflexivity|].
  exact (pattern_match_shape _ _ Hm).
Defined.


(** The listing of Tuesday 2022-07-12: a thread that is no report, last
    week's report, and this week's, which is the one answered with. *)
Lemma filter_submissions_first_witness :
  filter_submissions sample_plural (λ s, s) None sample_now sample_listing
  = Fetch ("Fashion Report details for week of 7/8/2022 (Week 232)"%string,
           "Available in 2 days, 21 hours, 29 minutes and 45 seconds."%string,
           "https://example.org/232.png"%string, green).
Proof.
  assert (Hbefore : ∀ x, x ∈ take 2 sample_listing → qualifies sample_now x = false).
  { intros x Hx. simpl in Hx.
    repeat (apply elem_of_cons in Hx as [-> | Hx]; [vm_compute; reflexivity|]).
    by apply elem_of_nil in Hx. }
  assert (Hq : qualifies sample_now
                 (mkSubmission
                    "[OC] Fashion Report - Full Details - For Week of 7/8/2022 (Week 232)"
                    1657267200 "https://example.org/232.png") = true)
    by (vm_compute; reflexivity).
  rewrite (proj2 (filter_submissions_first sample_plural (λ s, s) None sample_now
                    sample_listing)
             (take 2 sample_listing) _ [] (mkReportMatch "7/8/2022" "232")
             eq_refl Hbefore Hq eq_refl).
  vm_compute. reflexivity.
Defined.

(** Without this week's post in the listing the notice is sent. *)
Lemma fashion_report_notice_witness :
  fashion_report sample_plural (λ s, s) sample_now (take 2 sample_listing)
  = PlainEmbed "Seems the post for this week isn't up yet.".
Proof.
  apply (proj1 (fashion_report_notice sample_plural (λ s, s) sample_now
                  (take 2 sample_listing))).
  intros x Hx. simpl in Hx.
  repeat (apply elem_of_cons in Hx as [-> | Hx]; [vm_compute; reflexivity|]).
  by apply elem_of_nil in Hx.
Defined.

(** In the thousandth week a post titled with four digits is no match. *)
Lemma fashion_report_week_limit_witness :
  (weeks_since_start thousandth_friday < 0 ∨ 1000 <= weeks_since_start thousandth_friday)
  ∧ fashion_report sample_plural (λ s, s) thousandth_friday late_listing
    = PlainEmbed "Seems the post for this week isn't up yet.".
Proof.
  assert (Hweek : weeks_since_start thousandth_friday < 0
                  ∨ 1000 <= weeks_since_start thousandth_friday).
  { right. vm_compute. discriminate. }
  split; [exact Hweek|].
  exact (fashion_report_week_limit sample_plural (λ s, s) thousandth_friday late_listing
           Hweek).
Defined.

(** With a plain file named [ext-notes.txt] in the tree the bot is not
    started. *)
Lemma main_starts_iff_witness :
  snd (main sample_raises sample_files sample_directories) = Started
  ∧ snd (main sample_raises sample_files stray_directories) = ReturnedEarly.
Proof.
  split.
  - apply (proj1 (main_starts_iff sample_raises sample_files sample_directories)).
    split; [reflexivity|]. intros d Hd. unfold sample_directories in Hd.
    repeat (apply elem_of_cons in Hd as [-> | Hd]; [reflexivity|]).
    by apply elem_of_nil in Hd.
  - apply (proj2 (proj2 (main_starts_iff sample_raises sample_files stray_directories)));
      [reflexivity|].
    exists (mkPathEntry ["extensions"; "ext-notes.txt"]%string false true).
    split; [by left|reflexivity].
Defined.

(** [resets] fails, and is logged as failed, while [main] returns early. *)
Lemma every_extension_is_tried_witness :
  sample_raises "jishaku" = false
  ∧ mkPathEntry ["extensions"; "resets.py"]%string false true ∈ sample_files
  ∧ skipped (mkPathEntry ["extensions"; "resets.py"]%string false true) = false
  ∧ Failed "extensions.resets" ∈ fst (main sample_raises sample_files stray_directories).
Proof.
  assert (Hin : mkPathEntry ["extensions"; "resets.py"]%string false true ∈ sample_files)
    by (by left).
  split; [reflexivity|]. split; [exact Hin|]. split; [reflexivity|].
  exact (proj2 (every_extension_is_tried sample_raises sample_files stray_directories
                  _ eq_refl Hin eq_refl) eq_refl).
Defined.
